(** * Region containers of openMVG/features/regions.hpp

    A shallow embedding of [FeatureInImage], [Feat_Regions<FeatT>] and
    [FeatDesc_Regions<FeatT, T, L, regionType>], together with the
    type-erased [Regions] interface through which they are handled, and the
    properties of filtering, copying, clearing, cloning, loading and of the
    descriptor distance.

    C++ behaviour that the language leaves undefined (indexing a
    [std::vector] out of range, dereferencing the null result of a failed
    [dynamic_cast], using the result of a wrong [static_cast]) is a value of
    its own in the embedding, as is a failed [assert]. *)

From stdpp Require Import gmap list strings vector.
From stdpp Require Import sorting.
From Corelib Require SpecFloat.

(* ================================================================== *)
(** * Outcomes of a call *)
(* ================================================================== *)

(** What a call does: it returns a value, it stops in a failed [assert], or
    it runs into undefined behaviour. *)
Inductive outcome (A : Type) : Type :=
  | Returns (a : A)
  | AssertionFailure
  | Undefined.
Arguments Returns {A} a.
Arguments AssertionFailure {A}.
Arguments Undefined {A}.

Definition outcome_bind {A B : Type} (k : A → outcome B) (m : outcome A) : outcome B :=
  match m with
  | Returns a => k a
  | AssertionFailure => AssertionFailure
  | Undefined => Undefined
  end.

#[global] Instance outcome_mbind : MBind outcome := @outcome_bind.
#[global] Instance outcome_mret : MRet outcome := @Returns.

(** [assert] is compiled in unless [NDEBUG] is defined. *)
Inductive BuildMode := Debug | Release.

Definition assert_ (mode : BuildMode) (cond : bool) : outcome unit :=
  match mode with
  | Debug => if cond then Returns () else AssertionFailure
  | Release => Returns ()
  end.

(** [v[i]] on a [std::vector]: no bounds check, undefined out of range. *)
Definition at_ {A : Type} (v : list A) (i : nat) : outcome A :=
  match v !! i with
  | Some x => Returns x
  | None => Undefined
  end.

(* ================================================================== *)
(** * [IndexT] and [FeatureInImage] *)
(* ================================================================== *)

(** [IndexT] is declared in openMVG/types.hpp, an unsigned integer type; its
    width is a parameter of the development.  Values of type [IndexT] are
    kept in [N]; a [std::size_t] stored into an [IndexT] is reduced modulo
    [2 ^ IndexT_bits]. *)
Class IndexT_width := IndexT_bits : N.

Abbreviation IndexT := N (only parsing).

Definition IndexT_of_size_t `{IndexT_width} (i : nat) : IndexT :=
  (N.of_nat i mod 2 ^ IndexT_bits)%N.

Definition size_t_of_IndexT (x : IndexT) : nat := N.to_nat x.

Record FeatureInImage := mkFeatureInImage {
  _featureIndex : IndexT;
  _point3dId : IndexT
}.

(** [FeatureInImage::operator<] *)
Definition FeatureInImage_lt (a other : FeatureInImage) : bool :=
  bool_decide (_featureIndex a < _featureIndex other)%N.

(* ================================================================== *)
(** * The typed container *)
(* ================================================================== *)

(** The two data members: [_vec_feats] of [Feat_Regions<FeatT>] and
    [_vec_descs] of [FeatDesc_Regions<FeatT, T, L, regionType>].  The record
    is the state of one object of the class; [DescriptorT] stands for
    [Descriptor<T, L>]. *)
Record RegionsData (FeatT DescriptorT : Type) := mkRegionsData {
  _vec_feats : list FeatT;
  _vec_descs : list DescriptorT
}.
Arguments mkRegionsData {FeatT DescriptorT} _ _.
Arguments _vec_feats {FeatT DescriptorT} _.
Arguments _vec_descs {FeatT DescriptorT} _.

Section TypedContainer.
Context {FeatT DescriptorT : Type}.
Abbreviation This := (RegionsData FeatT DescriptorT).

(** [This()]: both vectors empty. *)
Definition default_constructed : This := mkRegionsData [] [].

Definition Features (this : This) : list FeatT := _vec_feats this.
Definition Descriptors (this : This) : list DescriptorT := _vec_descs this.

(** ** [Feat_Regions<FeatT>] *)

Definition RegionCount (this : This) : nat := length (_vec_feats this).

Section Positions.
(** [PointFeature], [Vec2f], [Vec2] and the conversions between them
    come from feature.hpp and numeric.h: the conversion of a [FeatT] to
    its [PointFeature] base, [FeatT::coords()], and
    [Vec2f::cast<double>()]. *)
Context {PointFeature Vec2f Vec2 : Type}.
Variable to_PointFeature : FeatT → PointFeature.
Variable coords : FeatT → Vec2f.
Variable cast_double : Vec2f → Vec2.

Definition GetRegionsPositions (this : This) : list PointFeature :=
  to_PointFeature <$> _vec_feats this.

Definition GetRegionPosition (this : This) (i : nat) : outcome Vec2 :=
  f ← at_ (_vec_feats this) i;
  mret (cast_double (coords f)).
End Positions.

(** ** [FeatDesc_Regions<FeatT, T, L, regionType>] *)

Definition clearDescriptors (this : This) : This :=
  mkRegionsData (_vec_feats this) [].

(** [&_vec_descs[0]]: the pointer is modelled by the element it points to. *)
Definition DescriptorRawData (this : This) : outcome DescriptorT :=
  at_ (_vec_descs this) 0.

Definition swap (this other : This) : This * This :=
  (mkRegionsData (_vec_feats other) (_vec_descs other),
   mkRegionsData (_vec_feats this) (_vec_descs this)).

Section IO.
(** The file routines are external.  Each receives the state of the files, a
    path and the vector it fills, and gives back its success flag and the
    vector as it leaves it. *)
Context {Files : Type}.
Variable loadFeatsFromFile : Files → string → list FeatT → bool * list FeatT.
Variable loadDescsFromBinFile :
  Files → string → list DescriptorT → bool * list DescriptorT.

Definition LoadFeatures (fs : Files) (sfileNameFeats : string) (this : This)
    : bool * This :=
  let '(ok, feats) := loadFeatsFromFile fs sfileNameFeats (_vec_feats this) in
  (ok, mkRegionsData feats (_vec_descs this)).

(** The two calls are the operands of the non-short-circuit [&] on [bool];
    they work on different vectors, so their relative order does not
    matter. *)
Definition Load (fs : Files) (sfileNameFeats sfileNameDescs : string)
    (this : This) : bool * This :=
  let '(okF, feats) := loadFeatsFromFile fs sfileNameFeats (_vec_feats this) in
  let '(okD, descs) := loadDescsFromBinFile fs sfileNameDescs (_vec_descs this) in
  (okF && okD, mkRegionsData feats descs).

(** The routines that write.  Each receives the state of the files, a path
    and the vector to write, and gives back its success flag and the state
    of the files after it. *)
Variable saveFeatsToFile : Files → string → list FeatT → bool * Files.
Variable saveDescsToBinFile : Files → string → list DescriptorT → bool * Files.

Definition SaveDesc (fs : Files) (sfileNameDescs : string) (this : This)
    : bool * Files :=
  saveDescsToBinFile fs sfileNameDescs (_vec_descs this).

(** The two calls are again the operands of [&], and both write: the
    language does not say which runs first, so the order is an argument,
    [feats_first].  The object itself is not changed ([Save] is [const]). *)
Definition Save (feats_first : bool) (fs : Files)
    (sfileNameFeats sfileNameDescs : string) (this : This) : bool * Files :=
  if feats_first then
    let '(okF, fs1) := saveFeatsToFile fs sfileNameFeats (_vec_feats this) in
    let '(okD, fs2) := saveDescsToBinFile fs1 sfileNameDescs (_vec_descs this) in
    (okF && okD, fs2)
  else
    let '(okD, fs1) := saveDescsToBinFile fs sfileNameDescs (_vec_descs this) in
    let '(okF, fs2) := saveFeatsToFile fs1 sfileNameFeats (_vec_feats this) in
    (okF && okD, fs2).
End IO.

(** ** [createFilteredRegions] *)

(** The variables the loop of [createFilteredRegions] updates. *)
Record FilterState := mkFilterState {
  regionsPtr : This;
  out_associated3dPoint : list IndexT;
  out_mapFullToLocal : gmap N N
}.

Context `{IndexT_width}.

(** One iteration, for [feat = featuresInImage[i]]. *)
Definition filter_step (this : This) (i : nat) (feat : FeatureInImage)
    (st : FilterState) : outcome FilterState :=
  f ← at_ (_vec_feats this) (size_t_of_IndexT (_featureIndex feat));
  d ← at_ (_vec_descs this) (size_t_of_IndexT (_featureIndex feat));
  mret (mkFilterState
          (mkRegionsData (_vec_feats (regionsPtr st) ++ [f])
                         (_vec_descs (regionsPtr st) ++ [d]))
          (out_associated3dPoint st ++ [_point3dId feat])
          (<[_featureIndex feat := IndexT_of_size_t i]> (out_mapFullToLocal st))).

(** The loop from index [i] on, over the associations not yet visited. *)
Fixpoint filter_loop (this : This) (rest : list FeatureInImage) (i : nat)
    (st : FilterState) : outcome FilterState :=
  match rest with
  | [] => Returns st
  | feat :: rest' =>
      st' ← filter_step this i feat st;
      filter_loop this rest' (S i) st'
  end.

(** The two output arguments are passed in with the contents the caller's
    objects have, and come back in the final state. *)
Definition createFilteredRegions (this : This)
    (featuresInImage : list FeatureInImage)
    (out_associated3dPoint0 : list IndexT) (out_mapFullToLocal0 : gmap N N)
    : outcome FilterState :=
  let out_associated3dPoint1 : list IndexT := [] in
  let out_mapFullToLocal1 : gmap N N := ∅ in
  filter_loop this featuresInImage 0
    (mkFilterState default_constructed out_associated3dPoint1 out_mapFullToLocal1).
End TypedContainer.

Arguments FilterState : clear implicits.

(* ================================================================== *)
(** * The class hierarchy and the [Regions] interface *)
(* ================================================================== *)

Inductive ERegionType := Binary | Scalar.

#[global] Instance ERegionType_eq_dec : EqDecision ERegionType.
Proof. solve_decision. Defined.

(** The template arguments of one instantiation
    [FeatDesc_Regions<FeatT, T, L, regionType>]; two objects have the same
    dynamic type exactly when these agree.  Feature types and element types
    are named by tags. *)
Record ClassId (FeatTag ElemTag : Type) := mkClassId {
  class_FeatT : FeatTag;
  class_T : ElemTag;
  class_L : nat;
  class_regionType : ERegionType
}.
Arguments mkClassId {FeatTag ElemTag} _ _ _ _.
Arguments class_FeatT {FeatTag ElemTag} _.
Arguments class_T {FeatTag ElemTag} _.
Arguments class_L {FeatTag ElemTag} _.
Arguments class_regionType {FeatTag ElemTag} _.

#[global] Instance ClassId_eq_dec `{EqDecision FeatTag, EqDecision ElemTag} :
  EqDecision (ClassId FeatTag ElemTag).
Proof. solve_decision. Defined.

Section Polymorphism.
(** The feature types of feature.hpp and the element types that descriptors
    are made of, each family indexed by its tags. *)
Context {FeatTag ElemTag : Type} `{!EqDecision FeatTag, !EqDecision ElemTag}.
Variable FeatT : FeatTag → Type.
Variable T : ElemTag → Type.

(** [Descriptor<T, L>] of descriptor.hpp: [L] elements of type [T];
    [getData()] points to the first of them. *)
Definition Descriptor (e : ElemTag) (L : nat) : Type := vec (T e) L.

Definition getData {e : ElemTag} {L : nat} (d : Descriptor e L) : list (T e) :=
  vec_to_list d.

(** The state of an object of the class [c]. *)
Definition This (c : ClassId FeatTag ElemTag) : Type :=
  RegionsData (FeatT (class_FeatT c)) (Descriptor (class_T c) (class_L c)).

(** What a [Regions*] or [Regions&] refers to: an object of some class of
    the hierarchy, with its dynamic type. *)
Definition Regions : Type := { c : ClassId FeatTag ElemTag & This c }.

Definition dynamic_type (r : Regions) : ClassId FeatTag ElemTag := projT1 r.

(** [dynamic_cast<const This*>(p)] for a non-null [p]: [None] is the null
    pointer. *)
Definition dynamic_cast_This (c : ClassId FeatTag ElemTag) (r : Regions)
    : option (This c) :=
  match decide (dynamic_type r = c) with
  | left e => Some (eq_rect (dynamic_type r) This (projT2 r) c e)
  | right _ => None
  end.

(** [dynamic_cast<const Feat_Regions<FeatT>*>(&r)]: the cast succeeds when
    the object's class derives from [Feat_Regions<FeatT>], that is when its
    feature type is [k]; the base subobject holds [_vec_feats]. *)
Definition dynamic_cast_Feat_Regions (k : FeatTag) (r : Regions)
    : option (list (FeatT k)) :=
  match decide (class_FeatT (dynamic_type r) = k) with
  | left e =>
      Some (eq_rect (class_FeatT (dynamic_type r)) (λ k', list (FeatT k'))
                    (_vec_feats (projT2 r)) k e)
  | right _ => None
  end.

(** [static_cast<This*>(p)] for a non-null [p]: no check is made, and using
    the result is undefined unless the object is a [This]. *)
Definition static_cast_This (c : ClassId FeatTag ElemTag) (r : Regions)
    : outcome (This c) :=
  match dynamic_cast_This c r with
  | Some x => Returns x
  | None => Undefined
  end.

(** ** Virtual member functions, called through the interface *)

Definition Regions_RegionCount (r : Regions) : nat := RegionCount (projT2 r).

Section TypeDescription.
(** [typeid(T).name()] *)
Variable typeid_name : ElemTag → string.

Definition Type_id (r : Regions) : string := typeid_name (class_T (dynamic_type r)).
Definition DescriptorLength (r : Regions) : nat := class_L (dynamic_type r).
Definition IsScalar (r : Regions) : bool :=
  bool_decide (class_regionType (dynamic_type r) = Scalar).
Definition IsBinary (r : Regions) : bool :=
  bool_decide (class_regionType (dynamic_type r) = Binary).
End TypeDescription.

(** [new This()] *)
Definition EmptyClone (r : Regions) : Regions :=
  existT (dynamic_type r) default_constructed.

(** ** Distance between two descriptors *)

Section Distance.
(** [SquaredMetric<T, regionType>::Metric] applied to two element arrays and
    a length; the result type stands for the [double] returned. *)
Context {double : Type}.
Variable Metric : ERegionType → ∀ e : ElemTag, list (T e) → list (T e) → nat → double.

(** [genericRegions] is a pointer: [None] is the null pointer.  The condition
    of the third [assert] calls a virtual function through it, and is
    evaluated in debug builds only. *)
Definition SquaredDescriptorDistance (mode : BuildMode)
    (c : ClassId FeatTag ElemTag) (this : This c) (i : nat)
    (genericRegions : option Regions) (j : nat) : outcome double :=
  _ ← assert_ mode (bool_decide (i < length (_vec_descs this)));
  _ ← assert_ mode (bool_decide (is_Some genericRegions));
  _ ← (match mode, genericRegions with
       | Debug, Some g => assert_ Debug (bool_decide (j < Regions_RegionCount g))
       | Debug, None => Undefined
       | Release, _ => Returns ()
       end);
  let regionsT : option (This c) := genericRegions ≫= dynamic_cast_This c in
  a ← at_ (_vec_descs this) i;
  other ← (match regionsT with Some x => Returns x | None => Undefined end);
  b ← at_ (_vec_descs other) j;
  mret (Metric (class_regionType c) (class_T c) (getData a) (getData b) (class_L c)).
End Distance.

(** ** Copy of one region *)

(** The result is the state of the object [outRegionContainer] points to
    after the call. *)
Definition CopyRegion (mode : BuildMode) (c : ClassId FeatTag ElemTag)
    (this : This c) (i : nat) (outRegionContainer : option Regions)
    : outcome Regions :=
  _ ← assert_ mode (bool_decide (i < length (_vec_feats this))
                    && bool_decide (i < length (_vec_descs this)));
  target ← (match outRegionContainer with
            | Some r => static_cast_This c r
            | None => Undefined
            end);
  f ← at_ (_vec_feats this) i;
  let target1 : This c := mkRegionsData (_vec_feats target ++ [f]) (_vec_descs target) in
  d ← at_ (_vec_descs this) i;
  let target2 : This c := mkRegionsData (_vec_feats target1) (_vec_descs target1 ++ [d]) in
  mret (existT c target2 : Regions).

(** ** [getSIOPointFeatures] *)

Section SIO.
Variable SIOPointFeature : FeatTag.

Definition getSIOPointFeatures (regions : Regions) : list (FeatT SIOPointFeature) :=
  let emptyFeats : list (FeatT SIOPointFeature) := [] in
  match dynamic_cast_Feat_Regions SIOPointFeature regions with
  | None => emptyFeats
  | Some sioFeatures => sioFeatures
  end.
End SIO.

(** ** The aliases [Scalar_Regions] and [Binary_Regions] *)

Definition Scalar_Regions (k : FeatTag) (e : ElemTag) (L : nat)
    : ClassId FeatTag ElemTag :=
  mkClassId k e L Scalar.

Section BinaryRegions.
Variable unsigned_char : ElemTag.

Definition Binary_Regions (k : FeatTag) (L : nat) : ClassId FeatTag ElemTag :=
  mkClassId k unsigned_char L Binary.
End BinaryRegions.

(** ** Several regions copied in a row *)

(** A caller's loop [for (i : indices) this->CopyRegion(i, target);], from
    the state [target] of the object pointed to; the result is its state
    after the last call. *)
Definition CopyRegions (mode : BuildMode) (c : ClassId FeatTag ElemTag)
    (this : This c) (indices : list nat) (target : Regions) : outcome Regions :=
  foldl (λ acc i, t ← acc; CopyRegion mode c this i (Some t)) (Returns target) indices.

End Polymorphism.

Arguments Regions {FeatTag ElemTag} FeatT T.
Arguments This {FeatTag ElemTag} FeatT T c.

(* ================================================================== *)
(** * Metrics *)
(* ================================================================== *)

(** Number of one bits of a non-negative integer. *)
Fixpoint Pos_popcount (p : positive) : nat :=
  match p with
  | xH => 1
  | xO p' => Pos_popcount p'
  | xI p' => S (Pos_popcount p')
  end.

Definition popcount (x : Z) : Z :=
  match x with
  | Zpos p => Z.of_nat (Pos_popcount p)
  | _ => 0%Z
  end.

(** Modelled from the spec: the metric kernels [matching::L2_Vectorized<T>]
    and [matching::SquaredHamming<T>] of openMVG/matching/metric.hpp, which
    is not among the sources.  The spec gives "Scalar -> squared Euclidean
    (L2) over T; Binary -> squared Hamming distance over T", computed "over L
    elements".  The element type is an integer type, its values kept in [Z];
    the sums are exact. *)
Definition L2_Vectorized (a b : list Z) (size : nat) : Z :=
  foldl Z.add 0%Z
    (zip_with (λ x y, ((x - y) * (x - y))%Z) (take size a) (take size b)).

(** Modelled from the spec: the Hamming distance of metric.hpp, the number
    of bits in which the first [size] elements differ. *)
Definition Hamming (a b : list Z) (size : nat) : Z :=
  foldl Z.add 0%Z
    (zip_with (λ x y, popcount (Z.lxor x y)) (take size a) (take size b)).

(** Modelled from the spec: "squared Hamming distance over T". *)
Definition SquaredHamming (a b : list Z) (size : nat) : Z :=
  let h := Hamming a b size in (h * h)%Z.

(** [SquaredMetric<T, regionType>::Metric], for containers whose element
    types are integer types. *)
Definition SquaredMetric {ElemTag : Type} (regionType : ERegionType) (e : ElemTag)
    : list Z → list Z → nat → Z :=
  match regionType with
  | Scalar => L2_Vectorized
  | Binary => SquaredHamming
  end.

(** Element types that are all integer types. *)
Definition integer_elements {ElemTag : Type} (e : ElemTag) : Type := Z.

(** An index that is in range for both vectors, as the [assert] of
    [CopyRegion] has it. *)
Definition valid_region_index {FeatT DescriptorT : Type}
    (this : RegionsData FeatT DescriptorT) (i : nat) : Prop :=
  i < length (_vec_feats this) ∧ i < length (_vec_descs this).

(* ================================================================== *)
(** * Integer and floating element types *)
(* ================================================================== *)

(** The element types [T] of the descriptors: the integer types, named by
    their [typeid] name, with values in [Z], and [float] and [double], with
    values in the IEEE 754 binary32 and binary64 formats. *)
Inductive ElementType :=
  | integer_type (name : string)
  | float_type
  | double_type.

#[global] Instance ElementType_eq_dec : EqDecision ElementType.
Proof. solve_decision. Defined.

Definition element_value (e : ElementType) : Type :=
  match e with
  | integer_type _ => Z
  | float_type | double_type => SpecFloat.spec_float
  end.








(* ================================================================== *)
(** * Sample data *)
(* ================================================================== *)

Module Sample.

#[export] Instance IndexT_32 : IndexT_width := 32%N.

(** Modelled from the spec: the feature types of feature.hpp, "a 2D image
    position plus type-specific geometric attributes (scale/orientation for
    scale-invariant features, or none for plain points)".  The samples take
    integral values for the coordinates. *)
Record PointFeature := mkPointFeature { pf_x : Z; pf_y : Z }.
Record SIOPointFeature := mkSIOPointFeature {
  sio_point : PointFeature;
  sio_scale : Z;
  sio_orientation : Z
}.

Inductive FeatTag := PointFeature_tag | SIOPointFeature_tag.

#[export] Instance FeatTag_eq_dec : EqDecision FeatTag.
Proof. solve_decision. Defined.

Definition FeatT (k : FeatTag) : Type :=
  match k with
  | PointFeature_tag => PointFeature
  | SIOPointFeature_tag => SIOPointFeature
  end.

Definition coords (f : SIOPointFeature) : Z * Z := (pf_x (sio_point f), pf_y (sio_point f)).

(** Element types are named by their [typeid] name. *)
Definition typeid_name (e : string) : string := e.

(** [Scalar_Regions<SIOPointFeature, unsigned char, 2>] and
    [Binary_Regions<SIOPointFeature, 2>] *)
Definition Scalar_uchar_2 : ClassId FeatTag string :=
  mkClassId SIOPointFeature_tag "h" 2 Scalar.
Definition Binary_uchar_2 : ClassId FeatTag string :=
  mkClassId SIOPointFeature_tag "h" 2 Binary.
(** [Scalar_Regions<PointFeature, unsigned char, 2>] *)
Definition Scalar_point_uchar_2 : ClassId FeatTag string :=
  mkClassId PointFeature_tag "h" 2 Scalar.

Definition feat (x y : Z) : SIOPointFeature :=
  mkSIOPointFeature (mkPointFeature x y) 1 0.

Definition desc (a b : Z) : vec Z 2 := [# a; b].

(** Three regions. *)
Definition three : RegionsData SIOPointFeature (vec Z 2) :=
  mkRegionsData [feat 10 11; feat 20 21; feat 30 31]
                [desc 1 2; desc 3 5; desc 255 0].

(** One region. *)
Definition one : RegionsData SIOPointFeature (vec Z 2) :=
  mkRegionsData [feat 7 8] [desc 4 6].

Definition three_scalar : This FeatT integer_elements Scalar_uchar_2 := three.
Definition one_scalar : This FeatT integer_elements Scalar_uchar_2 := one.
Definition one_binary : This FeatT integer_elements Binary_uchar_2 := one.
Definition one_point : This FeatT integer_elements Scalar_point_uchar_2 :=
  mkRegionsData [mkPointFeature 7 8] [desc 4 6].

(** The associations [(2,100),(0,101)], and [(0,10),(0,11)] with a feature
    index given twice. *)
Definition associations : list FeatureInImage :=
  [mkFeatureInImage 2 100; mkFeatureInImage 0 101].
Definition duplicate_associations : list FeatureInImage :=
  [mkFeatureInImage 0 10; mkFeatureInImage 0 11].

(** A loader that fails after having read two records, and one that reads a
    whole file of one record. *)
Definition loadFeats_truncated (_ : unit) (_ : string) (v : list SIOPointFeature)
    : bool * list SIOPointFeature :=
  (false, [feat 1 1; feat 2 2]).
Definition loadDescs_complete (_ : unit) (_ : string) (v : list (vec Z 2))
    : bool * list (vec Z 2) :=
  (true, [desc 9 9]).

(** Containers over the element types [unsigned char] and [float]. *)
Definition uchar_scalar_2 : ClassId FeatTag ElementType :=
  mkClassId SIOPointFeature_tag (integer_type "h") 2 Scalar.

Definition three_uchar : This FeatT element_value uchar_scalar_2 := three.




(** A store of files, and file routines on it: a file holds features or
    descriptors, writing replaces the file at the path, reading succeeds on
    a file of the right kind and otherwise leaves the vector as it is. *)
Inductive FileContent :=
  | FeatsFile (v : list SIOPointFeature)
  | DescsFile (v : list (vec Z 2)).

Definition saveFeatsToFile (fs : gmap string FileContent) (path : string)
    (v : list SIOPointFeature) : bool * gmap string FileContent :=
  (true, <[path := FeatsFile v]> fs).
Definition saveDescsToBinFile (fs : gmap string FileContent) (path : string)
    (v : list (vec Z 2)) : bool * gmap string FileContent :=
  (true, <[path := DescsFile v]> fs).
Definition loadFeatsFromFile (fs : gmap string FileContent) (path : string)
    (v : list SIOPointFeature) : bool * list SIOPointFeature :=
  match fs !! path with
  | Some (FeatsFile w) => (true, w)
  | _ => (false, v)
  end.
Definition loadDescsFromBinFile (fs : gmap string FileContent) (path : string)
    (v : list (vec Z 2)) : bool * list (vec Z 2) :=
  match fs !! path with
  | Some (DescsFile w) => (true, w)
  | _ => (false, v)
  end.

End Sample.

(** Closes a goal [valid_region_index this i] on explicit data. *)
Ltac in_range := unfold valid_region_index, size_t_of_IndexT; cbn; lia.

(* ================================================================== *)
(** * Properties of the typed container *)
(* ================================================================== *)

Lemma at_lookup {A : Type} (v : list A) (i : nat) (x : A) :
  v !! i = Some x → at_ v i = Returns x.
Proof. unfold at_. by intros ->. Qed.

Lemma at_in_range {A : Type} (v : list A) (i : nat) :
  i < length v → ∃ x, v !! i = Some x ∧ at_ v i = Returns x.
Proof.
  intros Hi. destruct (lookup_lt_is_Some_2 v i Hi) as [x Hx].
  exists x. split; [done | by apply at_lookup].
Qed.

Lemma at_out_of_range {A : Type} (v : list A) (i : nat) :
  length v ≤ i → at_ v i = Undefined.
Proof. intros Hi. unfold at_. by rewrite lookup_ge_None_2. Qed.

(** A position that fits [IndexT] is stored unchanged. *)
Lemma IndexT_of_size_t_small `{IndexT_width} (i : nat) :
  (N.of_nat i < 2 ^ IndexT_bits)%N → IndexT_of_size_t i = N.of_nat i.
Proof. intros Hi. unfold IndexT_of_size_t. by apply N.mod_small. Qed.

Section FilterProperties.
Context {FeatT DescriptorT : Type} `{IndexT_width}.
Implicit Types this : RegionsData FeatT DescriptorT.
Implicit Types st : FilterState FeatT DescriptorT.
Implicit Types feat a : FeatureInImage.

Lemma filter_step_in_range this i feat st :
  valid_region_index this (size_t_of_IndexT (_featureIndex feat)) →
  ∃ f d,
    _vec_feats this !! size_t_of_IndexT (_featureIndex feat) = Some f ∧
    _vec_descs this !! size_t_of_IndexT (_featureIndex feat) = Some d ∧
    filter_step this i feat st =
      Returns (mkFilterState
                 (mkRegionsData (_vec_feats (regionsPtr st) ++ [f])
                                (_vec_descs (regionsPtr st) ++ [d]))
                 (out_associated3dPoint st ++ [_point3dId feat])
                 (<[_featureIndex feat := IndexT_of_size_t i]> (out_mapFullToLocal st))).
Proof.
  intros [Hf Hd].
  destruct (at_in_range _ _ Hf) as (f & Hlf & Haf).
  destruct (at_in_range _ _ Hd) as (d & Hld & Had).
  exists f, d. split_and!; [done..|].
  unfold filter_step. rewrite Haf. cbn. rewrite Had. done.
Qed.

(** The loop, started at position [i] in state [st], on associations that
    are all in range: it returns, having appended the selected features and
    descriptors and the point ids in order; a feature index is mapped to
    the position of its last occurrence, and the other keys are as in
    [st]. *)
Lemma filter_loop_in_range this rest : ∀ i st,
  Forall (λ a, valid_region_index this (size_t_of_IndexT (_featureIndex a))) rest →
  ∃ st' fsel dsel,
    filter_loop this rest i st = Returns st' ∧
    _vec_feats (regionsPtr st') = _vec_feats (regionsPtr st) ++ fsel ∧
    _vec_descs (regionsPtr st') = _vec_descs (regionsPtr st) ++ dsel ∧
    Forall2 (λ a f, _vec_feats this !! size_t_of_IndexT (_featureIndex a) = Some f) rest fsel ∧
    Forall2 (λ a d, _vec_descs this !! size_t_of_IndexT (_featureIndex a) = Some d) rest dsel ∧
    out_associated3dPoint st' = out_associated3dPoint st ++ (_point3dId <$> rest) ∧
    (∀ k a, rest !! k = Some a →
       (∀ k' a', k < k' → rest !! k' = Some a' → _featureIndex a' ≠ _featureIndex a) →
       out_mapFullToLocal st' !! _featureIndex a = Some (IndexT_of_size_t (i + k))) ∧
    (∀ f, (∀ a, a ∈ rest → _featureIndex a ≠ f) →
       out_mapFullToLocal st' !! f = out_mapFullToLocal st !! f).
Proof.
  induction rest as [|feat rest IH]; intros i st Hall.
  - exists st, [], []. cbn. rewrite !app_nil_r.
    split_and!; done.
  - apply Forall_cons in Hall as [Hfeat Hall].
    destruct (filter_step_in_range this i feat st Hfeat) as (f & d & Hf & Hd & Hstep).
    set (st1 := mkFilterState
                  (mkRegionsData (_vec_feats (regionsPtr st) ++ [f])
                                 (_vec_descs (regionsPtr st) ++ [d]))
                  (out_associated3dPoint st ++ [_point3dId feat])
                  (<[_featureIndex feat := IndexT_of_size_t i]> (out_mapFullToLocal st)))
      in Hstep.
    destruct (IH (S i) st1 Hall)
      as (st' & fsel & dsel & Hrun & Hfs & Hds & Hfsel & Hdsel & Hpts & Hlast & Hother).
    exists st', (f :: fsel), (d :: dsel). cbn in *.
    split_and!.
    + rewrite Hstep. cbn. exact Hrun.
    + by rewrite Hfs, <- app_assoc.
    + by rewrite Hds, <- app_assoc.
    + by constructor.
    + by constructor.
    + by rewrite Hpts, <- app_assoc.
    + intros [|k] a Hk Hlater; cbn in Hk.
      * injection Hk as <-. rewrite Hother, Nat.add_0_r.
        -- apply lookup_insert_eq.
        -- intros a' [k' Hk']%list_elem_of_lookup.
           apply (Hlater (S k') a'); [lia | done].
      * replace (i + S k) with (S i + k) by lia.
        apply Hlast; [done|]. intros k' a' Hlt Hk'.
        apply (Hlater (S k') a'); [lia | done].
    + intros g Hg. rewrite Hother.
      * apply lookup_insert_ne. apply Hg. by left.
      * intros a Ha. apply Hg. by right.
Qed.

End FilterProperties.

Section TypedProperties.
Context {FeatT DescriptorT : Type} `{IndexT_width}.
Implicit Types this : RegionsData FeatT DescriptorT.

(** C1: on associations whose feature indices are all in range for the
    features and the descriptors of the source, [createFilteredRegions]
    returns; the new container has one feature and one descriptor per
    association, the [k]-th being the source's at the [k]-th association's
    [_featureIndex]; [out_associated3dPoint] is the sequence of the
    [_point3dId] in the same order; [out_mapFullToLocal] maps a feature index
    to the position at which it was retained (the last one, should it occur
    more than once), stored as an [IndexT], which is the position itself
    whenever that fits [IndexT], and has no other key; and the result does
    not depend on what the two output arguments held before the call. *)
Theorem createFilteredRegions_correct this (featuresInImage : list FeatureInImage)
    (out_associated3dPoint0 : list N) (out_mapFullToLocal0 : gmap N N) :
  Forall (λ a, valid_region_index this (size_t_of_IndexT (_featureIndex a)))
         featuresInImage →
  ∃ st,
    createFilteredRegions this featuresInImage
      out_associated3dPoint0 out_mapFullToLocal0 = Returns st ∧
    length (_vec_feats (regionsPtr st)) = length featuresInImage ∧
    length (_vec_descs (regionsPtr st)) = length featuresInImage ∧
    (∀ k a, featuresInImage !! k = Some a →
       _vec_feats (regionsPtr st) !! k
         = _vec_feats this !! size_t_of_IndexT (_featureIndex a) ∧
       _vec_descs (regionsPtr st) !! k
         = _vec_descs this !! size_t_of_IndexT (_featureIndex a)) ∧
    out_associated3dPoint st = _point3dId <$> featuresInImage ∧
    (∀ k a, featuresInImage !! k = Some a →
       (∀ k' a', k < k' → featuresInImage !! k' = Some a' →
                 _featureIndex a' ≠ _featureIndex a) →
       out_mapFullToLocal st !! _featureIndex a = Some (IndexT_of_size_t k) ∧
       ((N.of_nat k < 2 ^ IndexT_bits)%N →
        out_mapFullToLocal st !! _featureIndex a = Some (N.of_nat k))) ∧
    (∀ f, (∀ a, a ∈ featuresInImage → _featureIndex a ≠ f) →
       out_mapFullToLocal st !! f = None) ∧
    (∀ out_associated3dPoint0' out_mapFullToLocal0',
       createFilteredRegions this featuresInImage
         out_associated3dPoint0' out_mapFullToLocal0' = Returns st).
Proof.
  intros Hall. unfold createFilteredRegions.
  destruct (filter_loop_in_range this featuresInImage 0
              (mkFilterState default_constructed [] ∅) Hall)
    as (st & fsel & dsel & Hrun & Hfs & Hds & Hfsel & Hdsel & Hpts & Hlast & Hother).
  cbn in Hfs, Hds, Hpts.
  exists st. split_and!.
  - exact Hrun.
  - rewrite Hfs. symmetry. by eapply Forall2_length.
  - rewrite Hds. symmetry. by eapply Forall2_length.
  - intros k a Hk. rewrite Hfs, Hds. split.
    + destruct (Forall2_lookup_l _ _ _ _ _ Hfsel Hk) as (f & -> & ->). done.
    + destruct (Forall2_lookup_l _ _ _ _ _ Hdsel Hk) as (d & -> & ->). done.
  - exact Hpts.
  - intros k a Hk Hlater.
    assert (out_mapFullToLocal st !! _featureIndex a = Some (IndexT_of_size_t k))
      as Hmap by by apply Hlast.
    split; [done|]. intros Hsmall. by rewrite Hmap, IndexT_of_size_t_small.
  - intros f Hf. rewrite Hother by done. apply lookup_empty.
  - intros ? ?. exact Hrun.
Qed.

(** C2: when a feature index occurs at two positions of the associations,
    [out_mapFullToLocal] maps it to the position of its last occurrence,
    while the new container and [out_associated3dPoint] have one entry per
    association. *)
Theorem createFilteredRegions_duplicates this (featuresInImage : list FeatureInImage)
    (out_associated3dPoint0 : list N) (out_mapFullToLocal0 : gmap N N)
    (j k : nat) (a b : FeatureInImage) :
  Forall (λ a, valid_region_index this (size_t_of_IndexT (_featureIndex a)))
         featuresInImage →
  j < k →
  featuresInImage !! j = Some a →
  featuresInImage !! k = Some b →
  _featureIndex a = _featureIndex b →
  (∀ k' b', k < k' → featuresInImage !! k' = Some b' →
            _featureIndex b' ≠ _featureIndex b) →
  ∃ st,
    createFilteredRegions this featuresInImage
      out_associated3dPoint0 out_mapFullToLocal0 = Returns st ∧
    out_mapFullToLocal st !! _featureIndex a = Some (IndexT_of_size_t k) ∧
    RegionCount (regionsPtr st) = length featuresInImage ∧
    length (_vec_descs (regionsPtr st)) = length featuresInImage ∧
    length (out_associated3dPoint st) = length featuresInImage ∧
    _vec_feats (regionsPtr st) !! j = _vec_feats (regionsPtr st) !! k.
Proof.
  intros Hall Hjk Hj Hk Hab Hlater. unfold createFilteredRegions.
  destruct (filter_loop_in_range this featuresInImage 0
              (mkFilterState default_constructed [] ∅) Hall)
    as (st & fsel & dsel & Hrun & Hfs & Hds & Hfsel & Hdsel & Hpts & Hlast & _).
  cbn in Hfs, Hds, Hpts.
  exists st. split_and!.
  - exact Hrun.
  - rewrite Hab. by apply (Hlast k b).
  - unfold RegionCount. rewrite Hfs. symmetry. by eapply Forall2_length.
  - rewrite Hds. symmetry. by eapply Forall2_length.
  - by rewrite Hpts, length_fmap.
  - rewrite Hfs.
    destruct (Forall2_lookup_l _ _ _ _ _ Hfsel Hj) as (f & -> & Hf).
    destruct (Forall2_lookup_l _ _ _ _ _ Hfsel Hk) as (g & -> & Hg).
    unfold size_t_of_IndexT in *. rewrite Hab in Hf. congruence.
Qed.

(** C3: [clearDescriptors] empties the descriptors and nothing else:
    [RegionCount], [GetRegionPosition] at every index and
    [GetRegionsPositions] give what they gave before. *)
Theorem clearDescriptors_frame {PointFeature Vec2f Vec2 : Type}
    (to_PointFeature : FeatT → PointFeature) (coords : FeatT → Vec2f)
    (cast_double : Vec2f → Vec2) this :
  RegionCount (clearDescriptors this) = RegionCount this ∧
  (∀ i, GetRegionPosition coords cast_double (clearDescriptors this) i
        = GetRegionPosition coords cast_double this i) ∧
  GetRegionsPositions to_PointFeature (clearDescriptors this)
    = GetRegionsPositions to_PointFeature this ∧
  _vec_feats (clearDescriptors this) = _vec_feats this ∧
  _vec_descs (clearDescriptors this) = [].
Proof. by destruct this. Qed.

End TypedProperties.

(** C8: [Load] returns [true] exactly when both file routines do, and
    [false] as soon as one of them fails; both routines run whatever the
    other returns, and the vectors are left as the routines left them, also
    when [Load] reports a failure: a routine that fails after reading two
    records leaves them in the container. *)
Theorem Load_both_or_false :
  (∀ (FeatT DescriptorT Files : Type)
     (loadFeatsFromFile : Files → string → list FeatT → bool * list FeatT)
     (loadDescsFromBinFile : Files → string → list DescriptorT → bool * list DescriptorT)
     (fs : Files) (sfileNameFeats sfileNameDescs : string)
     (this : RegionsData FeatT DescriptorT),
     let feats_result := loadFeatsFromFile fs sfileNameFeats (_vec_feats this) in
     let descs_result := loadDescsFromBinFile fs sfileNameDescs (_vec_descs this) in
     let result := Load loadFeatsFromFile loadDescsFromBinFile fs
                     sfileNameFeats sfileNameDescs this in
     (result.1 = true ↔ feats_result.1 = true ∧ descs_result.1 = true) ∧
     (result.1 = false ↔ feats_result.1 = false ∨ descs_result.1 = false) ∧
     _vec_feats result.2 = feats_result.2 ∧
     _vec_descs result.2 = descs_result.2) ∧
  (let result := Load Sample.loadFeats_truncated Sample.loadDescs_complete ()
                   "feats" "descs" Sample.three in
   result.1 = false ∧
   length (_vec_feats result.2) = 2 ∧
   length (_vec_descs result.2) = 1 ∧
   result.2 ≠ Sample.three).
Proof.
  split.
  - intros FeatT DescriptorT Files loadF loadD fs pF pD this. cbn zeta.
    unfold Load.
    destruct (loadF fs pF (_vec_feats this)) as [okF feats].
    destruct (loadD fs pD (_vec_descs this)) as [okD descs]. cbn.
    split_and!; [| |done..].
    + apply andb_true_iff.
    + apply andb_false_iff.
  - cbn. split_and!; done.
Qed.

(* ================================================================== *)
(** * Properties of the class hierarchy *)
(* ================================================================== *)

Section PolymorphismProperties.
Context {FeatTag ElemTag : Type} `{!EqDecision FeatTag, !EqDecision ElemTag}.
Context {FeatT : FeatTag → Type} {T : ElemTag → Type}.
Implicit Types c : ClassId FeatTag ElemTag.
Implicit Types r : Regions FeatT T.

Lemma dynamic_cast_This_same c (x : This FeatT T c) :
  dynamic_cast_This FeatT T c (existT c x) = Some x.
Proof.
  unfold dynamic_cast_This. cbn.
  destruct (decide (c = c)) as [e|]; [|done].
  by rewrite (proof_irrel e eq_refl).
Qed.

Lemma dynamic_cast_This_other c r :
  dynamic_type FeatT T r ≠ c → dynamic_cast_This FeatT T c r = None.
Proof. intros Hne. unfold dynamic_cast_This. by destruct (decide _). Qed.

Lemma dynamic_cast_Feat_Regions_same (k : FeatTag) (e : ElemTag) (L : nat)
    (rt : ERegionType) (x : This FeatT T (mkClassId k e L rt)) :
  dynamic_cast_Feat_Regions FeatT T k (existT (mkClassId k e L rt) x)
    = Some (_vec_feats x).
Proof.
  unfold dynamic_cast_Feat_Regions. cbn.
  destruct (decide (k = k)) as [e'|]; [|done].
  by rewrite (proof_irrel e' eq_refl).
Qed.

Lemma dynamic_cast_Feat_Regions_other (k : FeatTag) r :
  class_FeatT (dynamic_type FeatT T r) ≠ k →
  dynamic_cast_Feat_Regions FeatT T k r = None.
Proof. intros Hne. unfold dynamic_cast_Feat_Regions. by destruct (decide _). Qed.

Lemma assert_true mode (cond : bool) : cond = true → assert_ mode cond = Returns ().
Proof. intros ->. by destruct mode. Qed.

(** What [CopyRegion] leaves in a target of the same class. *)
Lemma CopyRegion_same_type mode c (this target : This FeatT T c) i f d :
  _vec_feats this !! i = Some f →
  _vec_descs this !! i = Some d →
  CopyRegion FeatT T mode c this i (Some (existT c target))
    = Returns (existT c (mkRegionsData (_vec_feats target ++ [f])
                                       (_vec_descs target ++ [d]))).
Proof.
  intros Hf Hd. unfold CopyRegion.
  rewrite assert_true; cbn.
  - unfold static_cast_This. rewrite dynamic_cast_This_same. cbn.
    rewrite (at_lookup _ _ _ Hf). cbn. rewrite (at_lookup _ _ _ Hd). done.
  - apply andb_true_iff. split; apply bool_decide_eq_true; by eapply lookup_lt_Some.
Qed.

(** What [SquaredDescriptorDistance] returns against a container of the
    same class. *)
Lemma SquaredDescriptorDistance_same_type {double : Type}
    (Metric : ERegionType → ∀ e : ElemTag, list (T e) → list (T e) → nat → double)
    mode c (this other : This FeatT T c) i j da db :
  _vec_descs this !! i = Some da →
  _vec_descs other !! j = Some db →
  j < RegionCount other →
  SquaredDescriptorDistance FeatT T Metric mode c this i (Some (existT c other)) j
    = Returns (Metric (class_regionType c) (class_T c)
                 (getData T da) (getData T db) (class_L c)).
Proof.
  intros Ha Hb Hj. unfold SquaredDescriptorDistance.
  assert (i < length (_vec_descs this)) as Hi by by eapply lookup_lt_Some.
  rewrite (at_lookup _ _ _ Ha). cbn.
  rewrite dynamic_cast_This_same. cbn.
  rewrite (at_lookup _ _ _ Hb). cbn.
  destruct mode; cbn; [|done].
  rewrite !bool_decide_eq_true_2; done.
Qed.

(** C4: for an index in range for the features and the descriptors of the
    source and a target of the same class, [CopyRegion] returns and leaves
    the target with the source's feature [i] and descriptor [i] appended,
    each as the last element of its vector; both vectors are one longer,
    and they have equal lengths if they had before. *)
Theorem CopyRegion_appends mode c (this target : This FeatT T c) i :
  i < length (_vec_feats this) →
  i < length (_vec_descs this) →
  ∃ f d (target' : This FeatT T c),
    _vec_feats this !! i = Some f ∧
    _vec_descs this !! i = Some d ∧
    CopyRegion FeatT T mode c this i (Some (existT c target))
      = Returns (existT c target') ∧
    _vec_feats target' = _vec_feats target ++ [f] ∧
    _vec_descs target' = _vec_descs target ++ [d] ∧
    last (_vec_feats target') = Some f ∧
    last (_vec_descs target') = Some d ∧
    length (_vec_feats target') = S (length (_vec_feats target)) ∧
    length (_vec_descs target') = S (length (_vec_descs target)) ∧
    (length (_vec_feats target) = length (_vec_descs target) →
     length (_vec_feats target') = length (_vec_descs target')).
Proof.
  intros Hi Hj.
  destruct (lookup_lt_is_Some_2 _ _ Hi) as [f Hf].
  destruct (lookup_lt_is_Some_2 _ _ Hj) as [d Hd].
  exists f, d, (mkRegionsData (_vec_feats target ++ [f]) (_vec_descs target ++ [d])).
  cbn. split_and!; try done.
  - by apply CopyRegion_same_type.
  - apply last_snoc.
  - apply last_snoc.
  - rewrite length_app. cbn. lia.
  - rewrite length_app. cbn. lia.
  - intros Hlen. rewrite !length_app, Hlen. done.
Qed.

(** C6: [EmptyClone] gives a container with no region and no descriptor,
    of the class of the source: [IsScalar], [IsBinary], [DescriptorLength]
    and [Type_id] answer as they do on the source. *)
Theorem EmptyClone_same_class (typeid_name : ElemTag → string) r :
  Regions_RegionCount FeatT T (EmptyClone FeatT T r) = 0 ∧
  _vec_feats (projT2 (EmptyClone FeatT T r)) = [] ∧
  _vec_descs (projT2 (EmptyClone FeatT T r)) = [] ∧
  dynamic_type FeatT T (EmptyClone FeatT T r) = dynamic_type FeatT T r ∧
  IsScalar FeatT T (EmptyClone FeatT T r) = IsScalar FeatT T r ∧
  IsBinary FeatT T (EmptyClone FeatT T r) = IsBinary FeatT T r ∧
  DescriptorLength FeatT T (EmptyClone FeatT T r) = DescriptorLength FeatT T r ∧
  Type_id FeatT T typeid_name (EmptyClone FeatT T r) = Type_id FeatT T typeid_name r.
Proof. by destruct r. Qed.

(** C7, as amended: no [assert] tests the class of the operand.  With
    indices that pass the assertions, [SquaredDescriptorDistance] on an
    operand of another class dereferences the null result of the
    [dynamic_cast], and [CopyRegion] uses the result of the unchecked
    [static_cast]: both are undefined, in debug builds as in release
    builds.  On an operand of the same class, with indices in range, both
    return, in either build. *)
Theorem type_mismatch_is_undefined {double : Type}
    (Metric : ERegionType → ∀ e : ElemTag, list (T e) → list (T e) → nat → double)
    mode c (this : This FeatT T c) i j :
  (∀ other : Regions FeatT T,
     dynamic_type FeatT T other ≠ c →
     i < length (_vec_descs this) →
     j < Regions_RegionCount FeatT T other →
     SquaredDescriptorDistance FeatT T Metric mode c this i (Some other) j = Undefined) ∧
  (∀ target : Regions FeatT T,
     dynamic_type FeatT T target ≠ c →
     valid_region_index this i →
     CopyRegion FeatT T mode c this i (Some target) = Undefined) ∧
  (∀ other : This FeatT T c,
     i < length (_vec_descs this) →
     valid_region_index other j →
     ∃ v, SquaredDescriptorDistance FeatT T Metric mode c this i
            (Some (existT c other)) j = Returns v) ∧
  (∀ target : This FeatT T c,
     valid_region_index this i →
     ∃ target', CopyRegion FeatT T mode c this i (Some (existT c target))
                = Returns target').
Proof.
  split_and!.
  - intros other Hne Hi Hj. unfold SquaredDescriptorDistance.
    destruct (at_in_range _ _ Hi) as (da & _ & ->). cbn.
    rewrite (dynamic_cast_This_other _ _ Hne). cbn.
    destruct mode; cbn; [|done].
    rewrite !bool_decide_eq_true_2; done.
  - intros target Hne [Hf Hd]. unfold CopyRegion, static_cast_This.
    rewrite (dynamic_cast_This_other _ _ Hne).
    rewrite assert_true; [done|].
    apply andb_true_iff. split; by apply bool_decide_eq_true.
  - intros other Hi [Hjf Hjd].
    destruct (lookup_lt_is_Some_2 _ _ Hi) as [da Hda].
    destruct (lookup_lt_is_Some_2 _ _ Hjd) as [db Hdb].
    eexists. by eapply SquaredDescriptorDistance_same_type.
  - intros target [Hf Hd].
    destruct (lookup_lt_is_Some_2 _ _ Hf) as [f Hlf].
    destruct (lookup_lt_is_Some_2 _ _ Hd) as [d Hld].
    eexists. by eapply CopyRegion_same_type.
Qed.

(** C9: on an object whose class does not derive from
    [Feat_Regions<SIOPointFeature>], [getSIOPointFeatures] gives the empty
    vector; on one whose class does, it gives the object's own features. *)
Theorem getSIOPointFeatures_or_empty (SIOPointFeature : FeatTag) :
  (∀ r, class_FeatT (dynamic_type FeatT T r) ≠ SIOPointFeature →
        getSIOPointFeatures FeatT T SIOPointFeature r = []) ∧
  (∀ (e : ElemTag) (L : nat) (regionType : ERegionType)
     (x : This FeatT T (mkClassId SIOPointFeature e L regionType)),
     getSIOPointFeatures FeatT T SIOPointFeature
       (existT (mkClassId SIOPointFeature e L regionType) x) = _vec_feats x).
Proof.
  split.
  - intros r Hne. unfold getSIOPointFeatures.
    by rewrite dynamic_cast_Feat_Regions_other.
  - intros e L rt x. unfold getSIOPointFeatures.
    by rewrite dynamic_cast_Feat_Regions_same.
Qed.

(** C10: [DescriptorRawData] reads element 0 of the descriptors without a
    test: it is undefined on every container that holds no descriptor, among
    them a default-constructed one, the result of [EmptyClone] and any
    container after [clearDescriptors]; it is defined, and gives the first
    descriptor, as soon as there is one. *)
Theorem DescriptorRawData_needs_a_descriptor r :
  (length (_vec_descs (projT2 r)) = 0 → DescriptorRawData (projT2 r) = Undefined) ∧
  (0 < length (_vec_descs (projT2 r)) →
   ∃ d, _vec_descs (projT2 r) !! 0 = Some d ∧ DescriptorRawData (projT2 r) = Returns d) ∧
  DescriptorRawData (default_constructed : This FeatT T (dynamic_type FeatT T r))
    = Undefined ∧
  DescriptorRawData (projT2 (EmptyClone FeatT T r)) = Undefined ∧
  DescriptorRawData (clearDescriptors (projT2 r)) = Undefined.
Proof.
  unfold DescriptorRawData. split_and!; try done.
  - intros Hlen. apply at_out_of_range. lia.
  - intros Hlen. by apply at_in_range.
Qed.

End PolymorphismProperties.

(* ================================================================== *)
(** * Symmetry of the distance *)
(* ================================================================== *)




(** ** Floating elements *)













(* ================================================================== *)
(** * The properties on the sample data *)
(* ================================================================== *)

Import Sample.

Lemma associations_in_range :
  Forall (λ a, valid_region_index three (size_t_of_IndexT (_featureIndex a)))
         associations.
Proof. unfold associations. repeat (apply List.Forall_cons; [in_range|]). apply List.Forall_nil. Qed.

Lemma duplicate_associations_in_range :
  Forall (λ a, valid_region_index three (size_t_of_IndexT (_featureIndex a)))
         duplicate_associations.
Proof. unfold duplicate_associations. repeat (apply List.Forall_cons; [in_range|]). apply List.Forall_nil. Qed.

(** The associations [(2,100),(0,101)] on the three regions. *)
Lemma createFilteredRegions_correct_witness :
  Forall (λ a, valid_region_index three (size_t_of_IndexT (_featureIndex a)))
         associations ∧
  ∃ st,
    createFilteredRegions three associations [7%N] {[5%N := 5%N]} = Returns st ∧
    RegionCount (regionsPtr st) = 2 ∧
    _vec_feats (regionsPtr st) !! 0 = _vec_feats three !! 2 ∧
    _vec_feats (regionsPtr st) !! 1 = _vec_feats three !! 0 ∧
    _vec_descs (regionsPtr st) !! 0 = _vec_descs three !! 2 ∧
    _vec_descs (regionsPtr st) !! 1 = _vec_descs three !! 0 ∧
    out_associated3dPoint st = [100%N; 101%N] ∧
    out_mapFullToLocal st !! 2%N = Some 0%N ∧
    out_mapFullToLocal st !! 0%N = Some 1%N ∧
    out_mapFullToLocal st !! 5%N = None.
Proof.
  split; [exact associations_in_range|].
  destruct (createFilteredRegions_correct three associations [7%N] {[5%N := 5%N]}
              associations_in_range)
    as (st & Hrun & Hlf & Hld & Hk & Hpts & Hmap & Hnone & _).
  exists st. split_and!.
  - exact Hrun.
  - exact Hlf.
  - exact (proj1 (Hk 0 (mkFeatureInImage 2 100) eq_refl)).
  - exact (proj1 (Hk 1 (mkFeatureInImage 0 101) eq_refl)).
  - exact (proj2 (Hk 0 (mkFeatureInImage 2 100) eq_refl)).
  - exact (proj2 (Hk 1 (mkFeatureInImage 0 101) eq_refl)).
  - exact Hpts.
  - apply (Hmap 0 (mkFeatureInImage 2 100) eq_refl); [|reflexivity].
    intros [|[|k']] a' Hlt Hk'; [lia|..]; cbn in Hk'; by simplify_eq.
  - apply (Hmap 1 (mkFeatureInImage 0 101) eq_refl); [|reflexivity].
    intros [|[|k']] a' Hlt Hk'; [lia..|]; cbn in Hk'; by simplify_eq.
  - apply Hnone. intros a Ha. unfold associations in Ha.
    rewrite !elem_of_cons, elem_of_nil in Ha.
    destruct Ha as [->|[->|[]]]; done.
Defined.

(** The associations [(0,10),(0,11)]: the map sends 0 to 1, and the new
    container has two regions. *)
Lemma createFilteredRegions_duplicates_witness :
  Forall (λ a, valid_region_index three (size_t_of_IndexT (_featureIndex a)))
         duplicate_associations ∧
  ∃ st,
    createFilteredRegions three duplicate_associations [] ∅ = Returns st ∧
    out_mapFullToLocal st !! 0%N = Some 1%N ∧
    RegionCount (regionsPtr st) = 2 ∧
    length (_vec_descs (regionsPtr st)) = 2 ∧
    length (out_associated3dPoint st) = 2.
Proof.
  split; [exact duplicate_associations_in_range|].
  destruct (createFilteredRegions_duplicates three duplicate_associations [] ∅ 0 1
              (mkFeatureInImage 0 10) (mkFeatureInImage 0 11)
              duplicate_associations_in_range)
    as (st & Hrun & Hmap & Hcount & Hdescs & Hpts & _).
  - lia.
  - reflexivity.
  - reflexivity.
  - reflexivity.
  - intros [|[|k']] b' Hlt Hk'; [lia..|]; cbn in Hk'; by simplify_eq.
  - exists st. split_and!; done.
Defined.

(** Region 1 of the three regions copied behind the one region. *)
Lemma CopyRegion_appends_witness :
  1 < length (_vec_feats three_scalar) ∧
  1 < length (_vec_descs three_scalar) ∧
  ∃ target' : This FeatT integer_elements Scalar_uchar_2,
    CopyRegion FeatT integer_elements Debug Scalar_uchar_2 three_scalar 1
      (Some (existT Scalar_uchar_2 one_scalar)) = Returns (existT Scalar_uchar_2 target') ∧
    last (_vec_feats target') = Some (feat 20 21) ∧
    last (_vec_descs target') = Some (desc 3 5) ∧
    length (_vec_feats target') = 2 ∧
    length (_vec_descs target') = 2.
Proof.
  assert (1 < length (_vec_feats three_scalar)) as Hf by (cbn; lia).
  assert (1 < length (_vec_descs three_scalar)) as Hd by (cbn; lia).
  split_and!; [exact Hf | exact Hd |].
  destruct (CopyRegion_appends Debug Scalar_uchar_2 three_scalar one_scalar 1 Hf Hd)
    as (f & d & target' & Hlf & Hld & Hrun & _ & _ & Hlastf & Hlastd & Hlenf & Hlend & _).
  cbn in Hlf, Hld. simplify_eq.
  exists target'. split_and!; done.
Defined.



(** C7, as stated, fails: a scalar container asked for the distance to a
    binary one, or told to copy into it, with indices in range, passes every
    assertion of a debug build and goes on to undefined behaviour. *)
Lemma type_mismatch_not_asserted :
  dynamic_type FeatT integer_elements (existT Binary_uchar_2 one_binary)
    ≠ Scalar_uchar_2 ∧
  SquaredDescriptorDistance FeatT integer_elements SquaredMetric Debug Scalar_uchar_2
      three_scalar 0 (Some (existT Binary_uchar_2 one_binary)) 0 = Undefined ∧
  SquaredDescriptorDistance FeatT integer_elements SquaredMetric Debug Scalar_uchar_2
      three_scalar 0 (Some (existT Binary_uchar_2 one_binary)) 0 ≠ AssertionFailure ∧
  CopyRegion FeatT integer_elements Debug Scalar_uchar_2 three_scalar 1
      (Some (existT Binary_uchar_2 one_binary)) = Undefined ∧
  CopyRegion FeatT integer_elements Debug Scalar_uchar_2 three_scalar 1
      (Some (existT Binary_uchar_2 one_binary)) ≠ AssertionFailure.
Proof. split_and!; [discriminate | reflexivity | discriminate | reflexivity | discriminate]. Qed.

Lemma type_mismatch_is_undefined_witness :
  dynamic_type FeatT integer_elements (existT Binary_uchar_2 one_binary)
    ≠ Scalar_uchar_2 ∧
  0 < length (_vec_descs three_scalar) ∧
  0 < Regions_RegionCount FeatT integer_elements (existT Binary_uchar_2 one_binary) ∧
  valid_region_index three_scalar 0 ∧
  valid_region_index one_scalar 0 ∧
  SquaredDescriptorDistance FeatT integer_elements SquaredMetric Release Scalar_uchar_2
      three_scalar 0 (Some (existT Binary_uchar_2 one_binary)) 0 = Undefined ∧
  CopyRegion FeatT integer_elements Release Scalar_uchar_2 three_scalar 0
      (Some (existT Binary_uchar_2 one_binary)) = Undefined ∧
  (∃ v, SquaredDescriptorDistance FeatT integer_elements SquaredMetric Release
          Scalar_uchar_2 three_scalar 0 (Some (existT Scalar_uchar_2 one_scalar)) 0
        = Returns v) ∧
  (∃ target', CopyRegion FeatT integer_elements Release Scalar_uchar_2 three_scalar 0
                (Some (existT Scalar_uchar_2 one_scalar)) = Returns target').
Proof.
  assert (dynamic_type FeatT integer_elements (existT Binary_uchar_2 one_binary)
            ≠ Scalar_uchar_2) as Hne by discriminate.
  assert (0 < length (_vec_descs three_scalar)) as Hi by (cbn; lia).
  assert (0 < Regions_RegionCount FeatT integer_elements
                (existT Binary_uchar_2 one_binary)) as Hj by (cbn; lia).
  assert (valid_region_index three_scalar 0) as Ha by in_range.
  assert (valid_region_index one_scalar 0) as Hb by in_range.
  destruct (type_mismatch_is_undefined (FeatT := FeatT) (T := integer_elements)
              SquaredMetric Release Scalar_uchar_2 three_scalar 0 0)
    as (Hdist & Hcopy & Hdist_ok & Hcopy_ok).
  split_and!; [exact Hne | exact Hi | exact Hj | exact Ha | exact Hb |..].
  - exact (Hdist _ Hne Hi Hj).
  - exact (Hcopy _ Hne Ha).
  - exact (Hdist_ok one_scalar Hi Hb).
  - exact (Hcopy_ok one_scalar Ha).
Defined.

Lemma getSIOPointFeatures_or_empty_witness :
  class_FeatT (dynamic_type FeatT integer_elements (existT Scalar_point_uchar_2 one_point))
    ≠ SIOPointFeature_tag ∧
  getSIOPointFeatures FeatT integer_elements SIOPointFeature_tag
    (existT Scalar_point_uchar_2 one_point) = [] ∧
  getSIOPointFeatures FeatT integer_elements SIOPointFeature_tag
    (existT Scalar_uchar_2 one_scalar) = [feat 7 8].
Proof.
  assert (class_FeatT (dynamic_type FeatT integer_elements
                         (existT Scalar_point_uchar_2 one_point))
            ≠ SIOPointFeature_tag) as Hne by discriminate.
  destruct (getSIOPointFeatures_or_empty (FeatT := FeatT) (T := @integer_elements string)
              SIOPointFeature_tag) as [Hother Hsio].
  split_and!; [exact Hne | exact (Hother _ Hne) |].
  exact (Hsio "h" 2 Scalar one_scalar).
Defined.

Lemma DescriptorRawData_needs_a_descriptor_witness :
  length (_vec_descs (clearDescriptors one_scalar)) = 0 ∧
  DescriptorRawData (clearDescriptors one_scalar) = Undefined ∧
  0 < length (_vec_descs one_scalar) ∧
  DescriptorRawData one_scalar = Returns (desc 4 6).
Proof.
  destruct (DescriptorRawData_needs_a_descriptor (FeatT := FeatT) (T := integer_elements)
              (existT Scalar_uchar_2 (clearDescriptors one_scalar)))
    as (Hempty & _).
  destruct (DescriptorRawData_needs_a_descriptor (FeatT := FeatT) (T := integer_elements)
              (existT Scalar_uchar_2 one_scalar))
    as (_ & Hsome & _).
  assert (0 < length (_vec_descs one_scalar)) as Hlen by (cbn; lia).
  split_and!; [reflexivity | exact (Hempty eq_refl) | exact Hlen |].
  destruct (Hsome Hlen) as (d & Hd & Hraw). cbn in Hd, Hraw. by simplify_eq.
Defined.

(** ** The embedding evaluated *)

(** An association beyond the last feature makes the call undefined. *)
Example createFilteredRegions_out_of_range :
  createFilteredRegions three [mkFeatureInImage 3 100] [] ∅ = Undefined.
Proof. reflexivity. Qed.

(** A descriptor index beyond the last one is caught by the first [assert]
    of a debug build, and read in a release build. *)
Example SquaredDescriptorDistance_bad_index :
  SquaredDescriptorDistance FeatT integer_elements SquaredMetric Debug Scalar_uchar_2
      three_scalar 5 (Some (existT Scalar_uchar_2 one_scalar)) 0 = AssertionFailure ∧
  SquaredDescriptorDistance FeatT integer_elements SquaredMetric Release Scalar_uchar_2
      three_scalar 5 (Some (existT Scalar_uchar_2 one_scalar)) 0 = Undefined.
Proof. split; reflexivity. Qed.

(** A null operand stops a debug build in the second [assert]. *)
Example SquaredDescriptorDistance_null :
  SquaredDescriptorDistance FeatT integer_elements SquaredMetric Debug Scalar_uchar_2
      three_scalar 0 None 0 = AssertionFailure ∧
  SquaredDescriptorDistance FeatT integer_elements SquaredMetric Release Scalar_uchar_2
      three_scalar 0 None 0 = Undefined.
Proof. split; reflexivity. Qed.

(** [255 0] and [4 6] differ in 7 + 2 bits. *)
Example SquaredHamming_sample :
  SquaredDescriptorDistance FeatT integer_elements SquaredMetric Release Binary_uchar_2
      (three : This FeatT integer_elements Binary_uchar_2) 2
      (Some (existT Binary_uchar_2 one_binary)) 0 = Returns 81%Z.
Proof. reflexivity. Qed.

Example EmptyClone_sample :
  Type_id FeatT integer_elements typeid_name
    (EmptyClone FeatT integer_elements (existT Binary_uchar_2 one_binary)) = "h" ∧
  IsBinary FeatT integer_elements
    (EmptyClone FeatT integer_elements (existT Binary_uchar_2 one_binary)) = true ∧
  IsScalar FeatT integer_elements
    (EmptyClone FeatT integer_elements (existT Binary_uchar_2 one_binary)) = false ∧
  DescriptorLength FeatT integer_elements
    (EmptyClone FeatT integer_elements (existT Binary_uchar_2 one_binary)) = 2.
Proof. split_and!; reflexivity. Qed.

Example clearDescriptors_sample :
  RegionCount (clearDescriptors three) = 3 ∧
  GetRegionPosition coords id (clearDescriptors three) 1 = Returns (20, 21)%Z ∧
  GetRegionPosition coords id (clearDescriptors three) 3 = Undefined ∧
  DescriptorRawData (clearDescriptors three) = Undefined.
Proof. split_and!; reflexivity. Qed.

(** With a two-bit [IndexT], position 5 is stored as 1. *)
Example IndexT_of_size_t_wraps : @IndexT_of_size_t 2%N 5 = 1%N.
Proof. reflexivity. Qed.

(* ================================================================== *)
(** * Further properties of the typed container *)
(* ================================================================== *)

(** X1: [FeatureInImage::operator<] is a strict weak ordering that looks at
    [_featureIndex] only: two associations are unordered exactly when they
    name the same feature, whatever their [_point3dId]. *)
Theorem FeatureInImage_lt_strict_weak_order :
  (∀ a, FeatureInImage_lt a a = false) ∧
  (∀ a b, FeatureInImage_lt a b = true → FeatureInImage_lt b a = false) ∧
  (∀ a b c, FeatureInImage_lt a b = true → FeatureInImage_lt b c = true →
            FeatureInImage_lt a c = true) ∧
  (∀ a b c, FeatureInImage_lt a b = true →
            FeatureInImage_lt a c = true ∨ FeatureInImage_lt c b = true) ∧
  (∀ a b, FeatureInImage_lt a b = false ∧ FeatureInImage_lt b a = false
          ↔ _featureIndex a = _featureIndex b).
Proof.
  unfold FeatureInImage_lt.
  split_and!; intros;
    repeat match goal with
           | H : _ ∧ _ |- _ => destruct H
           | H : bool_decide _ = true |- _ => apply bool_decide_eq_true in H
           | H : bool_decide _ = false |- _ => apply bool_decide_eq_false in H
           | |- _ ↔ _ => split; intros
           | |- _ ∧ _ => split
           end;
    rewrite ?bool_decide_eq_true, ?bool_decide_eq_false; lia.
Qed.

Section FurtherTypedProperties.
Context {FeatT DescriptorT : Type} `{IndexT_width}.
Implicit Types this other : RegionsData FeatT DescriptorT.
Implicit Types st : FilterState FeatT DescriptorT.
Implicit Types feat a : FeatureInImage.

(** X2: [GetRegionPosition] returns the position of feature [i] exactly for
    [i < RegionCount()], and is undefined from [RegionCount()] on;
    [GetRegionsPositions] has [RegionCount()] entries, the [i]-th being the
    conversion of feature [i]. *)
Theorem GetRegionPosition_bounds {PointFeature Vec2f Vec2 : Type}
    (to_PointFeature : FeatT → PointFeature) (coords : FeatT → Vec2f)
    (cast_double : Vec2f → Vec2) this (i : nat) :
  (i < RegionCount this ↔
   ∃ f, _vec_feats this !! i = Some f ∧
        GetRegionPosition coords cast_double this i = Returns (cast_double (coords f)) ∧
        GetRegionsPositions to_PointFeature this !! i = Some (to_PointFeature f)) ∧
  (RegionCount this ≤ i ↔
   GetRegionPosition coords cast_double this i = Undefined) ∧
  length (GetRegionsPositions to_PointFeature this) = RegionCount this.
Proof.
  unfold RegionCount, GetRegionPosition, GetRegionsPositions.
  split_and!.
  - split.
    + intros Hi. destruct (at_in_range _ _ Hi) as (f & Hf & Hat).
      exists f. split_and!; [done | by rewrite Hat | by rewrite list_lookup_fmap, Hf].
    + intros (f & Hf & _). by eapply lookup_lt_Some.
  - split.
    + intros Hi. by rewrite at_out_of_range.
    + intros Hund. destruct (decide (i < length (_vec_feats this))) as [Hi|]; [|lia].
      destruct (at_in_range _ _ Hi) as (f & _ & Hat). by rewrite Hat in Hund.
  - apply length_fmap.
Qed.

(** [swap] exchanges the contents of the two objects; done twice it gives
    them back, and each object ends with equally long vectors if the other
    one had them. *)
Theorem swap_involutive this other :
  swap (swap this other).1 (swap this other).2 = (this, other) ∧
  _vec_feats (swap this other).1 = _vec_feats other ∧
  _vec_descs (swap this other).1 = _vec_descs other ∧
  _vec_feats (swap this other).2 = _vec_feats this ∧
  _vec_descs (swap this other).2 = _vec_descs this.
Proof. by destruct this, other. Qed.

#[global] Instance valid_region_index_dec this (i : nat) :
  Decision (valid_region_index this i).
Proof. unfold valid_region_index. apply _. Defined.

Lemma filter_step_out_of_range this i feat st :
  ¬ valid_region_index this (size_t_of_IndexT (_featureIndex feat)) →
  filter_step this i feat st = Undefined.
Proof.
  intros Hnot. unfold filter_step.
  destruct (decide (size_t_of_IndexT (_featureIndex feat) < length (_vec_feats this)))
    as [Hf|Hf].
  - destruct (at_in_range _ _ Hf) as (f & _ & ->). cbn.
    rewrite at_out_of_range; [reflexivity|].
    unfold valid_region_index in Hnot. lia.
  - rewrite (at_out_of_range (_vec_feats this)); [reflexivity | lia].
Qed.

Lemma filter_loop_out_of_range this rest : ∀ i st,
  Exists (λ a, ¬ valid_region_index this (size_t_of_IndexT (_featureIndex a))) rest →
  filter_loop this rest i st = Undefined.
Proof.
  induction rest as [|feat rest IH]; intros i st Hex.
  - by apply Exists_nil in Hex.
  - cbn. destruct (decide (valid_region_index this
                             (size_t_of_IndexT (_featureIndex feat)))) as [Hv|Hv].
    + destruct (filter_step_in_range this i feat st Hv) as (f & d & _ & _ & ->). cbn.
      apply IH. apply Exists_cons in Hex as [Hex|Hex]; done.
    + by rewrite filter_step_out_of_range.
Qed.

Lemma filter_loop_Returns_in_range this rest i st st' :
  filter_loop this rest i st = Returns st' →
  Forall (λ a, valid_region_index this (size_t_of_IndexT (_featureIndex a))) rest.
Proof.
  intros Hrun.
  destruct (decide (Forall (λ a, valid_region_index this
                                   (size_t_of_IndexT (_featureIndex a))) rest))
    as [|Hnot]; [done|].
  apply not_Forall_Exists in Hnot; [|apply _].
  by rewrite (filter_loop_out_of_range this rest i st Hnot) in Hrun.
Qed.

(** X3: [createFilteredRegions] returns exactly when every association is in
    range for the features and the descriptors of the source; one
    association out of range makes the whole call undefined, and no
    [assert] guards it. *)
Theorem createFilteredRegions_defined_iff this (featuresInImage : list FeatureInImage)
    (out_associated3dPoint0 : list N) (out_mapFullToLocal0 : gmap N N) :
  ((∃ st, createFilteredRegions this featuresInImage
            out_associated3dPoint0 out_mapFullToLocal0 = Returns st) ↔
   Forall (λ a, valid_region_index this (size_t_of_IndexT (_featureIndex a)))
          featuresInImage) ∧
  (createFilteredRegions this featuresInImage
     out_associated3dPoint0 out_mapFullToLocal0 = Undefined ↔
   Exists (λ a, ¬ valid_region_index this (size_t_of_IndexT (_featureIndex a)))
          featuresInImage) ∧
  createFilteredRegions this featuresInImage
    out_associated3dPoint0 out_mapFullToLocal0 ≠ AssertionFailure.
Proof.
  unfold createFilteredRegions.
  set (st0 := mkFilterState default_constructed [] ∅).
  destruct (decide (Forall (λ a, valid_region_index this
                                   (size_t_of_IndexT (_featureIndex a)))
                           featuresInImage)) as [Hall|Hnot].
  - destruct (filter_loop_in_range this featuresInImage 0 st0 Hall)
      as (st & ? & ? & Hrun & _).
    rewrite Hrun. split_and!; [|split; [done|]|done].
    + split; [done | by eauto].
    + intros Hex. by apply Exists_not_Forall in Hex.
  - assert (Exists (λ a, ¬ valid_region_index this
                           (size_t_of_IndexT (_featureIndex a))) featuresInImage)
      as Hex by (apply not_Forall_Exists in Hnot; [done | apply _]).
    rewrite (filter_loop_out_of_range this featuresInImage 0 st0 Hex).
    split_and!; [|done..].
    split; [by intros [? ?] | done].
Qed.

End FurtherTypedProperties.

(** ** More on [createFilteredRegions] *)

Lemma Forall2_lookup_functional {A B : Type} (g : A → option B) (l : list A) :
  ∀ k1 k2 : list B,
    Forall2 (λ a b, g a = Some b) l k1 →
    Forall2 (λ a b, g a = Some b) l k2 →
    k1 = k2.
Proof.
  induction l as [|a l IH]; intros k1 k2 H1 H2.
  - apply Forall2_nil_inv_l in H1, H2. congruence.
  - apply Forall2_cons_inv_l in H1 as (b1 & k1' & Hb1 & H1 & ->).
    apply Forall2_cons_inv_l in H2 as (b2 & k2' & Hb2 & H2 & ->).
    f_equal; [congruence | by apply IH].
Qed.

(** A feature index that occurs among the associations has a last
    occurrence. *)
Lemma last_occurrence_exists (l : list FeatureInImage) (f : N) :
  f ∈ _featureIndex <$> l →
  ∃ k a, l !! k = Some a ∧ _featureIndex a = f ∧
         ∀ k' a', k < k' → l !! k' = Some a' → _featureIndex a' ≠ f.
Proof.
  induction l as [|x l IH]; intros Hin.
  - by apply elem_of_nil in Hin.
  - destruct (decide (f ∈ _featureIndex <$> l)) as [Hl|Hl].
    + destruct (IH Hl) as (k & a & Hk & Ha & Hlater).
      exists (S k), a. split_and!; [done..|].
      intros [|k'] a' Hlt Hk'; [lia|]. apply (Hlater k' a'); [lia | done].
    + cbn in Hin. apply elem_of_cons in Hin as [Hx|Hin]; [|done].
      exists 0, x. split_and!; [done..|].
      intros [|k'] a' Hlt Hk'; [lia|]. cbn in Hk'. intros Heq. apply Hl.
      rewrite <- Heq. apply list_elem_of_fmap. exists a'. split; [done|].
      by eapply list_elem_of_lookup_2.
Qed.

Lemma StronglySorted_lookup {A : Type} (R : A → A → Prop) (l : list A) :
  StronglySorted R l →
  ∀ j k a b, j < k → l !! j = Some a → l !! k = Some b → R a b.
Proof.
  induction 1 as [|x l Hsorted IH Hall]; intros j k a b Hjk Hj Hk.
  - by rewrite lookup_nil in Hj.
  - destruct k as [|k]; [lia|]. cbn in Hk. destruct j as [|j]; cbn in Hj.
    + injection Hj as <-. rewrite List.Forall_forall in Hall. apply Hall.
      apply list_elem_of_In. by eapply list_elem_of_lookup_2.
    + apply (IH j k); [lia | done..].
Qed.

Lemma remove_dups_length_le {A : Type} `{EqDecision A} (l : list A) :
  length (remove_dups l) ≤ length l.
Proof.
  induction l as [|x l IH]; cbn; [done|].
  destruct (decide_rel elem_of x l); cbn; lia.
Qed.

Lemma remove_dups_length_NoDup {A : Type} `{EqDecision A} (l : list A) :
  length (remove_dups l) = length l ↔ NoDup l.
Proof.
  induction l as [|x l IH]; cbn.
  - split; [constructor | done].
  - rewrite NoDup_cons. pose proof (remove_dups_length_le l).
    destruct (decide_rel elem_of x l) as [Hin|Hin]; cbn.
    + split; [lia | by intros [? _]].
    + rewrite <- IH. split; [intros; split; [done | lia] | intros [_ ?]; lia].
Qed.

Section FurtherFilterProperties.
Context {FeatT DescriptorT : Type} `{IndexT_width}.
Implicit Types this : RegionsData FeatT DescriptorT.
Implicit Types st : FilterState FeatT DescriptorT.

(** What a call that returns has done. *)
Lemma createFilteredRegions_Returns this (featuresInImage : list FeatureInImage)
    (out_associated3dPoint0 : list N) (out_mapFullToLocal0 : gmap N N) st :
  createFilteredRegions this featuresInImage
    out_associated3dPoint0 out_mapFullToLocal0 = Returns st →
  Forall (λ a, valid_region_index this (size_t_of_IndexT (_featureIndex a)))
         featuresInImage ∧
  Forall2 (λ a f, _vec_feats this !! size_t_of_IndexT (_featureIndex a) = Some f)
          featuresInImage (_vec_feats (regionsPtr st)) ∧
  Forall2 (λ a d, _vec_descs this !! size_t_of_IndexT (_featureIndex a) = Some d)
          featuresInImage (_vec_descs (regionsPtr st)) ∧
  out_associated3dPoint st = _point3dId <$> featuresInImage ∧
  (∀ k a, featuresInImage !! k = Some a →
     (∀ k' a', k < k' → featuresInImage !! k' = Some a' →
               _featureIndex a' ≠ _featureIndex a) →
     out_mapFullToLocal st !! _featureIndex a = Some (IndexT_of_size_t k)) ∧
  (∀ f, f ∉ _featureIndex <$> featuresInImage → out_mapFullToLocal st !! f = None).
Proof.
  unfold createFilteredRegions. intros Hrun.
  pose proof (filter_loop_Returns_in_range _ _ _ _ _ Hrun) as Hall.
  destruct (filter_loop_in_range this featuresInImage 0
              (mkFilterState default_constructed [] ∅) Hall)
    as (st' & fsel & dsel & Hrun' & Hfs & Hds & Hfsel & Hdsel & Hpts & Hlast & Hother).
  rewrite Hrun in Hrun'. injection Hrun' as <-. cbn in Hfs, Hds, Hpts.
  rewrite Hfs, Hds. split_and!; [done..| |].
  - intros k a Hk Hlater. by apply Hlast.
  - intros f Hf. rewrite Hother; [apply lookup_empty|].
    intros a Ha Heq. apply Hf. apply list_elem_of_fmap. by exists a.
Qed.

(** The loop over [fs1 ++ fs2] is the loop over [fs1] followed by the loop
    over [fs2] from position [length fs1] on. *)
Lemma filter_loop_app this (fs1 fs2 : list FeatureInImage) : ∀ i st,
  filter_loop this (fs1 ++ fs2) i st
    = st1 ← filter_loop this fs1 i st; filter_loop this fs2 (i + length fs1) st1.
Proof.
  induction fs1 as [|feat fs1 IH]; intros i st; cbn.
  - by rewrite Nat.add_0_r.
  - destruct (filter_step this i feat st) as [st1| |]; cbn; [|done..].
    rewrite IH. by replace (S i + length fs1) with (i + S (length fs1)) by lia.
Qed.

(** X4: filtering by all the regions in their order, [0 .. RegionCount() - 1],
    gives back a container equal to the source, and a map that sends every
    index to itself. *)
Theorem createFilteredRegions_all_regions this (featuresInImage : list FeatureInImage)
    (out_associated3dPoint0 : list N) (out_mapFullToLocal0 : gmap N N) :
  length (_vec_descs this) = length (_vec_feats this) →
  _featureIndex <$> featuresInImage = N.of_nat <$> seq 0 (RegionCount this) →
  ∃ st,
    createFilteredRegions this featuresInImage
      out_associated3dPoint0 out_mapFullToLocal0 = Returns st ∧
    regionsPtr st = this ∧
    out_associated3dPoint st = _point3dId <$> featuresInImage ∧
    (∀ k, k < RegionCount this →
          out_mapFullToLocal st !! N.of_nat k = Some (IndexT_of_size_t k)).
Proof.
  unfold RegionCount. intros Hlen Hfs.
  assert (∀ k a, featuresInImage !! k = Some a →
                 _featureIndex a = N.of_nat k ∧ k < length (_vec_feats this)) as Hidx.
  { intros k a Hk.
    assert ((_featureIndex <$> featuresInImage) !! k = Some (_featureIndex a)) as Hka
      by by rewrite list_lookup_fmap, Hk.
    rewrite Hfs, list_lookup_fmap in Hka.
    destruct (seq 0 (length (_vec_feats this)) !! k) as [x|] eqn:Hx; [|done].
    apply lookup_seq in Hx as [-> Hx]. cbn in Hka. by simplify_eq. }
  assert (length featuresInImage = length (_vec_feats this)) as Hn.
  { apply (f_equal length) in Hfs. by rewrite !length_fmap, length_seq in Hfs. }
  assert (Forall (λ a, valid_region_index this (size_t_of_IndexT (_featureIndex a)))
                 featuresInImage) as Hall.
  { apply Forall_lookup. intros k a Hk. destruct (Hidx k a Hk) as [Ha Hlt].
    unfold valid_region_index, size_t_of_IndexT. rewrite Ha, Nat2N.id. lia. }
  unfold createFilteredRegions.
  destruct (filter_loop_in_range this featuresInImage 0
              (mkFilterState default_constructed [] ∅) Hall)
    as (st & fsel & dsel & Hrun & Hf & Hd & Hfsel & Hdsel & Hpts & Hlast & _).
  cbn in Hf, Hd, Hpts.
  exists st. split_and!; [done| |done|].
  - destruct (regionsPtr st) as [F D], this as [F0 D0]. cbn in *. subst F D.
    f_equal; apply list_eq; intros k.
    + destruct (decide (k < length featuresInImage)) as [Hk|Hk].
      * destruct (lookup_lt_is_Some_2 _ _ Hk) as [a Ha].
        destruct (Forall2_lookup_l _ _ _ _ _ Hfsel Ha) as (f & -> & Hsrc).
        destruct (Hidx k a Ha) as [Hka _].
        unfold size_t_of_IndexT in Hsrc. by rewrite Hka, Nat2N.id in Hsrc.
      * rewrite !lookup_ge_None_2; [done | lia |].
        rewrite <- (Forall2_length _ _ _ Hfsel). lia.
    + destruct (decide (k < length featuresInImage)) as [Hk|Hk].
      * destruct (lookup_lt_is_Some_2 _ _ Hk) as [a Ha].
        destruct (Forall2_lookup_l _ _ _ _ _ Hdsel Ha) as (d & -> & Hsrc).
        destruct (Hidx k a Ha) as [Hka _].
        unfold size_t_of_IndexT in Hsrc. by rewrite Hka, Nat2N.id in Hsrc.
      * rewrite !lookup_ge_None_2; [done | lia |].
        rewrite <- (Forall2_length _ _ _ Hdsel). lia.
  - intros k Hk. rewrite <- Hn in Hk.
    destruct (lookup_lt_is_Some_2 _ _ Hk) as [a Ha].
    destruct (Hidx k a Ha) as [Hka _]. rewrite <- Hka.
    apply (Hlast k a Ha). intros k' a' Hlt Ha'.
    destruct (Hidx k' a' Ha') as [Hka' _]. rewrite Hka, Hka'. lia.
Qed.

(** The value stored for a key is the position of the key's last
    occurrence, when the positions fit [IndexT]. *)
Lemma out_mapFullToLocal_position this (featuresInImage : list FeatureInImage)
    (out_associated3dPoint0 : list N) (out_mapFullToLocal0 : gmap N N) st (f v : N) :
  createFilteredRegions this featuresInImage
    out_associated3dPoint0 out_mapFullToLocal0 = Returns st →
  (N.of_nat (length featuresInImage) ≤ 2 ^ IndexT_bits)%N →
  out_mapFullToLocal st !! f = Some v →
  ∃ k a, featuresInImage !! k = Some a ∧ _featureIndex a = f ∧ v = N.of_nat k ∧
         ∀ k' a', k < k' → featuresInImage !! k' = Some a' → _featureIndex a' ≠ f.
Proof.
  intros Hrun Hfit Hv.
  destruct (createFilteredRegions_Returns _ _ _ _ _ Hrun)
    as (_ & _ & _ & _ & Hlast & Hnone).
  destruct (decide (f ∈ _featureIndex <$> featuresInImage)) as [Hin|Hin];
    [|by rewrite (Hnone f Hin) in Hv].
  destruct (last_occurrence_exists _ _ Hin) as (k & a & Hk & Ha & Hlater).
  exists k, a. split_and!; [done..| |done].
  subst f. rewrite (Hlast k a Hk Hlater) in Hv. injection Hv as <-.
  apply IndexT_of_size_t_small. apply lookup_lt_Some in Hk. lia.
Qed.

(** X5: the result of filtering by a prefix of the associations is a prefix of
    the result: the first [length fs1] features, descriptors and point ids
    of the call on [fs1 ++ fs2] are those of the call on [fs1], and the call
    on [fs1 ++ fs2] is the loop over [fs2] continued from there. *)
Theorem createFilteredRegions_prefix this (fs1 fs2 : list FeatureInImage)
    (out_associated3dPoint0 : list N) (out_mapFullToLocal0 : gmap N N) st :
  createFilteredRegions this (fs1 ++ fs2)
    out_associated3dPoint0 out_mapFullToLocal0 = Returns st →
  ∃ st1,
    createFilteredRegions this fs1
      out_associated3dPoint0 out_mapFullToLocal0 = Returns st1 ∧
    filter_loop this fs2 (length fs1) st1 = Returns st ∧
    _vec_feats (regionsPtr st1) = take (length fs1) (_vec_feats (regionsPtr st)) ∧
    _vec_descs (regionsPtr st1) = take (length fs1) (_vec_descs (regionsPtr st)) ∧
    out_associated3dPoint st1 = take (length fs1) (out_associated3dPoint st).
Proof.
  intros Hrun.
  destruct (createFilteredRegions_Returns _ _ _ _ _ Hrun)
    as (_ & Hf & Hd & Hpts & _).
  unfold createFilteredRegions in Hrun. rewrite filter_loop_app in Hrun.
  destruct (filter_loop this fs1 0 (mkFilterState default_constructed [] ∅))
    as [st1| |] eqn:Hrun1; cbn in Hrun; [|done..].
  exists st1.
  destruct (createFilteredRegions_Returns this fs1
              out_associated3dPoint0 out_mapFullToLocal0 st1 Hrun1)
    as (_ & Hf1 & Hd1 & Hpts1 & _).
  apply Forall2_app_inv_l in Hf as (kf1 & kf2 & Hkf1 & _ & ->).
  apply Forall2_app_inv_l in Hd as (kd1 & kd2 & Hkd1 & _ & ->).
  rewrite (Forall2_lookup_functional _ _ _ _ Hf1 Hkf1).
  rewrite (Forall2_lookup_functional _ _ _ _ Hd1 Hkd1).
  rewrite Hpts, Hpts1, fmap_app.
  split_and!; [done..| | |].
  - symmetry. apply take_app_length'. by eapply Forall2_length.
  - symmetry. apply take_app_length'. by eapply Forall2_length.
  - symmetry. apply take_app_length'. by rewrite length_fmap.
Qed.

(** X6: the map and the new container agree: a key [f] with value [v] names a
    feature of the source, [v] is the position of the last association with
    feature index [f], and region [v] of the new container is region [f] of
    the source, with that association's point id at position [v] of
    [out_associated3dPoint].  The number of associations has to fit
    [IndexT]. *)
Theorem out_mapFullToLocal_consistent this (featuresInImage : list FeatureInImage)
    (out_associated3dPoint0 : list N) (out_mapFullToLocal0 : gmap N N) st (f v : N) :
  createFilteredRegions this featuresInImage
    out_associated3dPoint0 out_mapFullToLocal0 = Returns st →
  (N.of_nat (length featuresInImage) ≤ 2 ^ IndexT_bits)%N →
  out_mapFullToLocal st !! f = Some v →
  ∃ a,
    featuresInImage !! N.to_nat v = Some a ∧
    _featureIndex a = f ∧
    (∀ k' a', N.to_nat v < k' → featuresInImage !! k' = Some a' →
              _featureIndex a' ≠ f) ∧
    is_Some (_vec_feats this !! N.to_nat f) ∧
    _vec_feats (regionsPtr st) !! N.to_nat v = _vec_feats this !! N.to_nat f ∧
    _vec_descs (regionsPtr st) !! N.to_nat v = _vec_descs this !! N.to_nat f ∧
    out_associated3dPoint st !! N.to_nat v = Some (_point3dId a).
Proof.
  intros Hrun Hfit Hv.
  destruct (out_mapFullToLocal_position _ _ _ _ _ _ _ Hrun Hfit Hv)
    as (k & a & Hk & Ha & -> & Hlater).
  destruct (createFilteredRegions_Returns _ _ _ _ _ Hrun)
    as (_ & Hf & Hd & Hpts & _).
  rewrite Nat2N.id. exists a.
  destruct (Forall2_lookup_l _ _ _ _ _ Hf Hk) as (x & Hx & Hsrc).
  destruct (Forall2_lookup_l _ _ _ _ _ Hd Hk) as (d & Hdk & Hdsrc).
  unfold size_t_of_IndexT in Hsrc, Hdsrc. rewrite Ha in Hsrc, Hdsrc.
  split_and!; [done..|by eauto|congruence|congruence|].
  by rewrite Hpts, list_lookup_fmap, Hk.
Qed.

(** X7: the keys of the map are the feature indices of the associations, so
    the map has as many entries as there are distinct feature indices: one
    per association exactly when no feature index is repeated. *)
Theorem out_mapFullToLocal_keys this (featuresInImage : list FeatureInImage)
    (out_associated3dPoint0 : list N) (out_mapFullToLocal0 : gmap N N) st :
  createFilteredRegions this featuresInImage
    out_associated3dPoint0 out_mapFullToLocal0 = Returns st →
  dom (out_mapFullToLocal st) = list_to_set (_featureIndex <$> featuresInImage) ∧
  size (out_mapFullToLocal st)
    = length (remove_dups (_featureIndex <$> featuresInImage)) ∧
  (NoDup (_featureIndex <$> featuresInImage) ↔
   size (out_mapFullToLocal st) = length featuresInImage).
Proof.
  intros Hrun.
  destruct (createFilteredRegions_Returns _ _ _ _ _ Hrun)
    as (_ & _ & _ & _ & Hlast & Hnone).
  assert (dom (out_mapFullToLocal st)
          = list_to_set (_featureIndex <$> featuresInImage)) as Hdom.
  { apply set_eq. intros f. rewrite elem_of_dom, elem_of_list_to_set. split.
    - intros [v Hv].
      destruct (decide (f ∈ _featureIndex <$> featuresInImage)) as [|Hin]; [done|].
      by rewrite (Hnone f Hin) in Hv.
    - intros Hin. destruct (last_occurrence_exists _ _ Hin) as (k & a & Hk & <- & Hlater).
      rewrite (Hlast k a Hk Hlater). by eauto. }
  assert (size (out_mapFullToLocal st)
          = length (remove_dups (_featureIndex <$> featuresInImage))) as Hsize.
  { rewrite <- size_dom, Hdom.
    replace (list_to_set (_featureIndex <$> featuresInImage) : gset N)
      with (list_to_set (remove_dups (_featureIndex <$> featuresInImage)) : gset N).
    - apply size_list_to_set, NoDup_remove_dups.
    - apply set_eq. intros f. by rewrite !elem_of_list_to_set, elem_of_remove_dups. }
  split_and!; [done..|].
  rewrite Hsize, <- remove_dups_length_NoDup. by rewrite length_fmap.
Qed.

(** X8: on associations sorted by [operator<] (no association is less than an
    earlier one), the map is increasing: of two keys, the smaller has the
    smaller local index.  The number of associations has to fit [IndexT]. *)
Theorem createFilteredRegions_sorted this (featuresInImage : list FeatureInImage)
    (out_associated3dPoint0 : list N) (out_mapFullToLocal0 : gmap N N) st
    (f g v w : N) :
  createFilteredRegions this featuresInImage
    out_associated3dPoint0 out_mapFullToLocal0 = Returns st →
  StronglySorted (λ a b, FeatureInImage_lt b a = false) featuresInImage →
  (N.of_nat (length featuresInImage) ≤ 2 ^ IndexT_bits)%N →
  out_mapFullToLocal st !! f = Some v →
  out_mapFullToLocal st !! g = Some w →
  (f < g)%N →
  (v < w)%N.
Proof.
  intros Hrun Hsorted Hfit Hv Hw Hfg.
  destruct (out_mapFullToLocal_position _ _ _ _ _ _ _ Hrun Hfit Hv)
    as (kf & af & Hkf & Haf & -> & _).
  destruct (out_mapFullToLocal_position _ _ _ _ _ _ _ Hrun Hfit Hw)
    as (kg & ag & Hkg & Hag & -> & _).
  destruct (decide (kf < kg)) as [|Hge]; [lia|]. exfalso.
  destruct (decide (kf = kg)) as [->|Hne].
  - rewrite Hkf in Hkg. injection Hkg as <-. lia.
  - assert (kg < kf) as Hlt by lia.
    pose proof (StronglySorted_lookup _ _ Hsorted kg kf ag af Hlt Hkg Hkf) as Hnot.
    cbn in Hnot. unfold FeatureInImage_lt in Hnot.
    apply bool_decide_eq_false in Hnot. lia.
Qed.

End FurtherFilterProperties.

(* ================================================================== *)
(** * Further properties of the class hierarchy *)
(* ================================================================== *)

Section FurtherPolymorphismProperties.
Context {FeatTag ElemTag : Type} `{!EqDecision FeatTag, !EqDecision ElemTag}.
Context {FeatT : FeatTag → Type} {T : ElemTag → Type}.
Context {double : Type}.
Variable Metric : ERegionType → ∀ e : ElemTag, list (T e) → list (T e) → nat → double.
Implicit Types c : ClassId FeatTag ElemTag.
Implicit Types r : Regions FeatT T.

(** X9: a container is scalar or binary, never both and never neither. *)
Theorem IsScalar_xor_IsBinary r :
  IsScalar FeatT T r = negb (IsBinary FeatT T r) ∧
  (IsScalar FeatT T r = true ↔ class_regionType (dynamic_type FeatT T r) = Scalar) ∧
  (IsBinary FeatT T r = true ↔ class_regionType (dynamic_type FeatT T r) = Binary).
Proof.
  unfold IsScalar, IsBinary. rewrite !bool_decide_eq_true.
  split_and!; [|done..].
  by destruct (class_regionType (dynamic_type FeatT T r)).
Qed.

(** X10: [SquaredDescriptorDistance] returns a value exactly when the operand is
    a non-null pointer to an object of the same class, [i] is a descriptor
    index of [this] and [j] one of the operand, and, in a debug build, [j]
    is also below the operand's [RegionCount()]; the value is the metric of
    the class applied to the two descriptors over [L] elements. *)
Theorem SquaredDescriptorDistance_Returns_iff mode c (this : This FeatT T c) (i : nat)
    (genericRegions : option (Regions FeatT T)) (j : nat) (v : double) :
  SquaredDescriptorDistance FeatT T Metric mode c this i genericRegions j = Returns v ↔
  ∃ (other : This FeatT T c) da db,
    genericRegions = Some (existT c other) ∧
    _vec_descs this !! i = Some da ∧
    _vec_descs other !! j = Some db ∧
    (mode = Debug → j < RegionCount other) ∧
    v = Metric (class_regionType c) (class_T c) (getData T da) (getData T db) (class_L c).
Proof.
  split.
  - unfold SquaredDescriptorDistance, at_. intros Hrun.
    destruct genericRegions as [[c' other]|]; cycle 1.
    { destruct mode, (_vec_descs this !! i); repeat case_bool_decide;
        cbn in Hrun; (done || by destruct H as [? ?]). }
    destruct (decide (c' = c)) as [->|Hne]; cycle 1.
    { cbn in Hrun. rewrite (dynamic_cast_This_other c (existT c' other)) in Hrun by done.
      destruct mode, (_vec_descs this !! i); repeat case_bool_decide; by cbn in Hrun. }
    cbn in Hrun. rewrite dynamic_cast_This_same in Hrun.
    destruct (_vec_descs this !! i) as [da|] eqn:Hda,
             (_vec_descs other !! j) as [db|] eqn:Hdb.
    + exists other, da, db.
      destruct mode; repeat case_bool_decide; cbn in Hrun;
        rewrite ?Hdb in Hrun; cbn in Hrun; unfold mret, outcome_mret in Hrun;
        simplify_eq; split_and!; done.
    + destruct mode; repeat case_bool_decide; cbn in Hrun; by rewrite ?Hdb in Hrun.
    + destruct mode; repeat case_bool_decide; by cbn in Hrun.
    + destruct mode; repeat case_bool_decide; by cbn in Hrun.
  - intros (other & da & db & -> & Hda & Hdb & Hj & ->).
    unfold SquaredDescriptorDistance.
    rewrite (at_lookup _ _ _ Hda). cbn. rewrite dynamic_cast_This_same. cbn.
    rewrite (at_lookup _ _ _ Hdb). cbn.
    destruct mode; cbn; [|done].
    apply lookup_lt_Some in Hda.
    rewrite !bool_decide_eq_true_2; first [done | by apply Hj].
Qed.

(** X11: [SquaredDescriptorDistance] stops in an [assert] exactly in a debug
    build in which [i] is not a descriptor index of [this], or the operand
    is null, or [j] is not below the operand's [RegionCount()]; the class of
    the operand plays no part. *)
Theorem SquaredDescriptorDistance_AssertionFailure_iff mode c (this : This FeatT T c)
    (i : nat) (genericRegions : option (Regions FeatT T)) (j : nat) :
  SquaredDescriptorDistance FeatT T Metric mode c this i genericRegions j
    = AssertionFailure ↔
  mode = Debug ∧
  (length (_vec_descs this) ≤ i ∨
   genericRegions = None ∨
   ∃ g, genericRegions = Some g ∧ Regions_RegionCount FeatT T g ≤ j).
Proof.
  unfold SquaredDescriptorDistance, at_.
  destruct mode; cycle 1.
  { cbn. split; [|by intros [? _]].
    destruct (_vec_descs this !! i); cbn; [|done].
    destruct (genericRegions ≫= dynamic_cast_This FeatT T c) as [other|]; cbn; [|done].
    by destruct (_vec_descs other !! j). }
  destruct (decide (i < length (_vec_descs this))) as [Hi|Hi]; cycle 1.
  { cbn. rewrite (bool_decide_eq_false_2 _ Hi). cbn.
    split; [intros _; split; [done | left; lia] | done]. }
  destruct genericRegions as [g|]; cycle 1.
  { cbn. rewrite (bool_decide_eq_true_2 _ Hi). cbn.
    split; [intros _; split; [done | by right; left] | done]. }
  destruct (decide (j < Regions_RegionCount FeatT T g)) as [Hj|Hj]; cycle 1.
  { cbn. rewrite (bool_decide_eq_true_2 _ Hi), (bool_decide_eq_false_2 _ Hj). cbn.
    split; [intros _; split; [done | right; right; exists g; split; [done | lia]] | done]. }
  cbn. rewrite (bool_decide_eq_true_2 _ Hi), (bool_decide_eq_true_2 _ Hj). cbn.
  split.
  - destruct (_vec_descs this !! i); cbn; [|done].
    destruct (dynamic_cast_This FeatT T c g) as [other|]; cbn; [|done].
    by destruct (_vec_descs other !! j).
  - intros [_ [?|[?|(g' & ? & ?)]]]; [lia | done | simplify_eq; lia].
Qed.

(** X12: the third [assert] compares [j] with the number of features of the
    operand, while the access is to its descriptors: on an operand of the
    same class with more features than descriptors, such as one whose
    descriptors have been cleared, an index in between passes every
    assertion and the call is undefined, in a debug build too. *)
Theorem SquaredDescriptorDistance_beyond_descriptors mode c
    (this other : This FeatT T c) (i j : nat) :
  i < length (_vec_descs this) →
  j < RegionCount other →
  length (_vec_descs other) ≤ j →
  SquaredDescriptorDistance FeatT T Metric mode c this i (Some (existT c other)) j
    = Undefined.
Proof.
  intros Hi Hj Hdescs. unfold SquaredDescriptorDistance.
  destruct (at_in_range _ _ Hi) as (da & _ & ->). cbn.
  rewrite dynamic_cast_This_same. cbn.
  rewrite (at_out_of_range _ _ Hdescs). cbn.
  destruct mode; cbn; [|done].
  rewrite !bool_decide_eq_true_2; done.
Qed.

(** X13: [CopyRegion] changes the target exactly when the target is a non-null
    pointer to an object of the same class and [i] is in range for the
    features and the descriptors of [this]; it then appends that feature and
    that descriptor.  It stops in its [assert] exactly in a debug build with
    [i] out of range, whatever the target. *)
Theorem CopyRegion_outcome mode c (this : This FeatT T c) (i : nat)
    (outRegionContainer : option (Regions FeatT T)) :
  (∀ t, CopyRegion FeatT T mode c this i outRegionContainer = Returns t ↔
        ∃ (target : This FeatT T c) f d,
          outRegionContainer = Some (existT c target) ∧
          _vec_feats this !! i = Some f ∧
          _vec_descs this !! i = Some d ∧
          t = existT c (mkRegionsData (_vec_feats target ++ [f])
                                      (_vec_descs target ++ [d]))) ∧
  (CopyRegion FeatT T mode c this i outRegionContainer = AssertionFailure ↔
   mode = Debug ∧ ¬ valid_region_index this i).
Proof.
  split.
  - intros t. split.
    + unfold CopyRegion, static_cast_This, at_. intros Hrun.
      destruct (assert_ mode _) as [[]| |]; cbn in Hrun; [|done..].
      destruct outRegionContainer as [[c' target]|]; [|done].
      destruct (decide (c' = c)) as [->|Hne]; cycle 1.
      { by rewrite (dynamic_cast_This_other c (existT c' target)) in Hrun. }
      rewrite dynamic_cast_This_same in Hrun. cbn in Hrun.
      destruct (_vec_feats this !! i) as [f|]; cbn in Hrun; [|done].
      destruct (_vec_descs this !! i) as [d|]; cbn in Hrun; [|done].
      unfold mret, outcome_mret in Hrun. injection Hrun as <-.
      by exists target, f, d.
    + intros (target & f & d & -> & Hf & Hd & ->). by apply CopyRegion_same_type.
  - unfold CopyRegion, static_cast_This, at_, valid_region_index.
    assert (∀ k : () → outcome (Regions FeatT T),
              (∀ u, k u ≠ AssertionFailure) →
              (assert_ mode (bool_decide (i < length (_vec_feats this))
                             && bool_decide (i < length (_vec_descs this))) ≫= k
               = AssertionFailure ↔
               mode = Debug ∧ ¬ (i < length (_vec_feats this)
                                 ∧ i < length (_vec_descs this)))) as Hassert.
    { intros k Hk. destruct mode; cbn.
      - destruct (decide (i < length (_vec_feats this))) as [Hf|Hf],
                 (decide (i < length (_vec_descs this))) as [Hd|Hd];
          rewrite ?(bool_decide_eq_true_2 _ Hf), ?(bool_decide_eq_false_2 _ Hf),
                  ?(bool_decide_eq_true_2 _ Hd), ?(bool_decide_eq_false_2 _ Hd); cbn;
          (split; [intros Hrun | intros [_ Hnot]]);
          first [done | by apply Hk in Hrun | split; [done | lia] | lia].
      - split; [intros Hrun; by apply Hk in Hrun | by intros [? _]]. }
    apply Hassert. intros [].
    destruct outRegionContainer as [r|]; cbn; [|done].
    destruct (dynamic_cast_This FeatT T c r) as [target|]; cbn; [|done].
    destruct (_vec_feats this !! i); cbn; [|done].
    by destruct (_vec_descs this !! i).
Qed.

Context `{IndexT_width}.

(** X14: once [clearDescriptors] has run, no operation that reads a descriptor
    of the object returns: [CopyRegion] from it and
    [SquaredDescriptorDistance] on it stop in the [assert] of a debug build
    and are undefined in a release build, for every index and operand, and
    [createFilteredRegions] is undefined on any association at all.
    Clearing twice is clearing once. *)
Theorem clearDescriptors_disables_descriptors mode c (this : This FeatT T c) :
  clearDescriptors (clearDescriptors this) = clearDescriptors this ∧
  (∀ i outRegionContainer,
     CopyRegion FeatT T mode c (clearDescriptors this) i outRegionContainer
       = match mode with Debug => AssertionFailure | Release => Undefined end) ∧
  (∀ i genericRegions j,
     SquaredDescriptorDistance FeatT T Metric mode c (clearDescriptors this)
         i genericRegions j
       = match mode with Debug => AssertionFailure | Release => Undefined end) ∧
  (∀ feat featuresInImage out_associated3dPoint0 out_mapFullToLocal0,
     createFilteredRegions (clearDescriptors this) (feat :: featuresInImage)
       out_associated3dPoint0 out_mapFullToLocal0 = Undefined).
Proof.
  split_and!.
  - done.
  - intros i out. unfold CopyRegion, static_cast_This, at_. cbn.
    rewrite andb_false_r. destruct mode; cbn; [done|].
    destruct out as [r|]; cbn; [|done].
    destruct (dynamic_cast_This FeatT T c r) as [target|]; cbn; [|done].
    by destruct (_vec_feats this !! i).
  - intros i g j. unfold SquaredDescriptorDistance, at_. cbn.
    by destruct mode.
  - intros feat fs o1 o2. unfold createFilteredRegions. cbn.
    rewrite filter_step_out_of_range; [done|].
    unfold valid_region_index. cbn. lia.
Qed.

(** The first call of the row, then the rest on what it leaves; nothing
    follows a call that does not return. *)
Lemma CopyRegions_cons mode c (this : This FeatT T c) (i : nat) (indices : list nat)
    (target : Regions FeatT T) :
  CopyRegions FeatT T mode c this (i :: indices) target
    = CopyRegion FeatT T mode c this i (Some target)
      ≫= CopyRegions FeatT T mode c this indices.
Proof.
  unfold CopyRegions. cbn [foldl].
  change (Returns target ≫= λ t, CopyRegion FeatT T mode c this i (Some t))
    with (CopyRegion FeatT T mode c this i (Some target)).
  destruct (CopyRegion FeatT T mode c this i (Some target)) as [t| |]; cbn; [done|..];
    induction indices as [|? ? IH]; cbn; done.
Qed.

(** A row of [CopyRegion] calls with indices in range appends the selected
    features and descriptors to a target of the same class. *)
Lemma CopyRegions_in_range mode c (this : This FeatT T c) (indices : list nat) :
  ∀ target : This FeatT T c,
    Forall (valid_region_index this) indices →
    ∃ fsel dsel,
      Forall2 (λ i f, _vec_feats this !! i = Some f) indices fsel ∧
      Forall2 (λ i d, _vec_descs this !! i = Some d) indices dsel ∧
      CopyRegions FeatT T mode c this indices (existT c target)
        = Returns (existT c (mkRegionsData (_vec_feats target ++ fsel)
                                           (_vec_descs target ++ dsel))).
Proof.
  induction indices as [|i indices IH]; intros target Hall.
  - exists [], []. unfold CopyRegions. cbn. rewrite !app_nil_r.
    split_and!; [constructor..|]. by destruct target.
  - apply Forall_cons in Hall as [[Hf Hd] Hall].
    destruct (lookup_lt_is_Some_2 _ _ Hf) as [f Hlf].
    destruct (lookup_lt_is_Some_2 _ _ Hd) as [d Hld].
    destruct (IH (mkRegionsData (_vec_feats target ++ [f]) (_vec_descs target ++ [d]))
                 Hall) as (fsel & dsel & Hfsel & Hdsel & Hrun).
    exists (f :: fsel), (d :: dsel). split_and!; [by constructor..|].
    rewrite CopyRegions_cons, (CopyRegion_same_type mode c this target i f d Hlf Hld).
    etrans; [exact Hrun|]. cbn. by rewrite <- !app_assoc.
Qed.

Lemma Forall2_lookup_seq {A : Type} (l k : list A) :
  Forall2 (λ i x, l !! i = Some x) (seq 0 (length l)) k → k = l.
Proof.
  intros Hall. apply list_eq. intros i.
  destruct (decide (i < length l)) as [Hi|Hi].
  - assert (seq 0 (length l) !! i = Some i) as Hseq by by apply lookup_seq.
    destruct (Forall2_lookup_l _ _ _ _ _ Hall Hseq) as (x & -> & ->). done.
  - rewrite !lookup_ge_None_2; [done | lia |].
    rewrite <- (Forall2_length _ _ _ Hall), length_seq. lia.
Qed.

(** X15: copying every region of a container, in order, into its [EmptyClone]
    gives a container equal to it, provided it has one descriptor per
    feature. *)
Theorem CopyRegions_into_EmptyClone mode c (this : This FeatT T c) :
  length (_vec_descs this) = length (_vec_feats this) →
  CopyRegions FeatT T mode c this (seq 0 (RegionCount this))
      (EmptyClone FeatT T (existT c this))
    = Returns (existT c this).
Proof.
  intros Hlen. unfold RegionCount.
  destruct (CopyRegions_in_range mode c this (seq 0 (length (_vec_feats this)))
              default_constructed) as (fsel & dsel & Hfsel & Hdsel & Hrun).
  { apply Forall_forall. intros i Hi%elem_of_seq. unfold valid_region_index. lia. }
  etrans; [exact Hrun|]. cbn. apply Forall2_lookup_seq in Hfsel as ->.
  rewrite <- Hlen in Hdsel. apply Forall2_lookup_seq in Hdsel as ->.
  by destruct this.
Qed.

(** X16: the container built by [createFilteredRegions] is the one a caller gets
    by [EmptyClone] followed by one [CopyRegion] per association, at that
    association's [_featureIndex]. *)
Theorem createFilteredRegions_as_CopyRegions mode c (this : This FeatT T c)
    (featuresInImage : list FeatureInImage)
    (out_associated3dPoint0 : list N) (out_mapFullToLocal0 : gmap N N)
    (st : FilterState (FeatT (class_FeatT c)) (Descriptor T (class_T c) (class_L c))) :
  createFilteredRegions this featuresInImage
    out_associated3dPoint0 out_mapFullToLocal0 = Returns st →
  CopyRegions FeatT T mode c this
      ((λ a, size_t_of_IndexT (_featureIndex a)) <$> featuresInImage)
      (EmptyClone FeatT T (existT c this))
    = Returns (existT c (regionsPtr st)).
Proof.
  intros Hrun.
  destruct (createFilteredRegions_Returns _ _ _ _ _ Hrun) as (Hall & Hf & Hd & _).
  destruct (CopyRegions_in_range mode c this
              ((λ a, size_t_of_IndexT (_featureIndex a)) <$> featuresInImage)
              default_constructed) as (fsel & dsel & Hfsel & Hdsel & Hcopy).
  { by apply Forall_fmap. }
  etrans; [exact Hcopy|].
  apply Forall2_fmap_l in Hfsel, Hdsel. cbn.
  rewrite (Forall2_lookup_functional _ _ _ _ Hfsel Hf).
  rewrite (Forall2_lookup_functional _ _ _ _ Hdsel Hd).
  by destruct (regionsPtr st).
Qed.

(** X17: [Binary_Regions<FeatT, L>] and [Scalar_Regions<FeatT, unsigned char, L>]
    store the same features and descriptors, yet are different classes: an
    object of one is binary, of element type [unsigned char] and length [L],
    and a [dynamic_cast] to the other class gives the null pointer, in
    either direction. *)
Theorem Binary_Regions_is_not_Scalar_Regions (unsigned_char : ElemTag)
    (typeid_name : ElemTag → string) (k : FeatTag) (L : nat)
    (x : RegionsData (FeatT k) (Descriptor T unsigned_char L)) :
  IsBinary FeatT T (existT (Binary_Regions unsigned_char k L) x) = true ∧
  IsScalar FeatT T (existT (Binary_Regions unsigned_char k L) x) = false ∧
  IsScalar FeatT T (existT (Scalar_Regions k unsigned_char L) x) = true ∧
  Type_id FeatT T typeid_name (existT (Binary_Regions unsigned_char k L) x)
    = typeid_name unsigned_char ∧
  DescriptorLength FeatT T (existT (Binary_Regions unsigned_char k L) x) = L ∧
  dynamic_cast_This FeatT T (Scalar_Regions k unsigned_char L)
    (existT (Binary_Regions unsigned_char k L) x) = None ∧
  dynamic_cast_This FeatT T (Binary_Regions unsigned_char k L)
    (existT (Scalar_Regions k unsigned_char L) x) = None.
Proof.
  split_and!; [done..| |]; by apply dynamic_cast_This_other.
Qed.

End FurtherPolymorphismProperties.

(* ================================================================== *)
(** * Saving and loading *)
(* ================================================================== *)

(** X18: when the file routines are such that a vector written to a path is read
    back from it, and writing one kind of file leaves files at other paths
    as they read, then after a successful [Save] to two different paths,
    whichever file is written first, [Load] from these paths succeeds and
    makes the receiver equal to the container saved, and [LoadFeatures]
    succeeds and replaces the receiver's features only. *)
Theorem Save_then_Load {FeatT DescriptorT Files : Type}
    (loadFeatsFromFile : Files → string → list FeatT → bool * list FeatT)
    (loadDescsFromBinFile : Files → string → list DescriptorT → bool * list DescriptorT)
    (saveFeatsToFile : Files → string → list FeatT → bool * Files)
    (saveDescsToBinFile : Files → string → list DescriptorT → bool * Files)
    (feats_first : bool) (fs : Files) (sfileNameFeats sfileNameDescs : string)
    (this other : RegionsData FeatT DescriptorT) :
  (∀ fs p v v0, (saveFeatsToFile fs p v).1 = true →
                loadFeatsFromFile (saveFeatsToFile fs p v).2 p v0 = (true, v)) →
  (∀ fs p d d0, (saveDescsToBinFile fs p d).1 = true →
                loadDescsFromBinFile (saveDescsToBinFile fs p d).2 p d0 = (true, d)) →
  (∀ fs p q d v0, p ≠ q →
                  loadFeatsFromFile (saveDescsToBinFile fs q d).2 p v0
                  = loadFeatsFromFile fs p v0) →
  (∀ fs p q v d0, p ≠ q →
                  loadDescsFromBinFile (saveFeatsToFile fs p v).2 q d0
                  = loadDescsFromBinFile fs q d0) →
  sfileNameFeats ≠ sfileNameDescs →
  (Save saveFeatsToFile saveDescsToBinFile feats_first fs
     sfileNameFeats sfileNameDescs this).1 = true →
  Load loadFeatsFromFile loadDescsFromBinFile
      (Save saveFeatsToFile saveDescsToBinFile feats_first fs
         sfileNameFeats sfileNameDescs this).2
      sfileNameFeats sfileNameDescs other
    = (true, this) ∧
  LoadFeatures loadFeatsFromFile
      (Save saveFeatsToFile saveDescsToBinFile feats_first fs
         sfileNameFeats sfileNameDescs this).2
      sfileNameFeats other
    = (true, mkRegionsData (_vec_feats this) (_vec_descs other)).
Proof.
  intros Hfeats Hdescs Hfd Hdf Hne Hok.
  unfold Save, Load, LoadFeatures in *. destruct feats_first.
  - pose proof (Hfeats fs sfileNameFeats (_vec_feats this) (_vec_feats other)) as HF.
    destruct (saveFeatsToFile fs sfileNameFeats (_vec_feats this)) as [okF fs1].
    pose proof (Hdescs fs1 sfileNameDescs (_vec_descs this) (_vec_descs other)) as HD.
    pose proof (Hfd fs1 sfileNameFeats sfileNameDescs (_vec_descs this)
                    (_vec_feats other) Hne) as HFD.
    destruct (saveDescsToBinFile fs1 sfileNameDescs (_vec_descs this)) as [okD fs2].
    cbn in *. apply andb_true_iff in Hok as [-> ->].
    rewrite HFD, HF, HD by done. by destruct this.
  - pose proof (Hdescs fs sfileNameDescs (_vec_descs this) (_vec_descs other)) as HD.
    destruct (saveDescsToBinFile fs sfileNameDescs (_vec_descs this)) as [okD fs1].
    pose proof (Hfeats fs1 sfileNameFeats (_vec_feats this) (_vec_feats other)) as HF.
    pose proof (Hdf fs1 sfileNameFeats sfileNameDescs (_vec_feats this)
                    (_vec_descs other) Hne) as HDF.
    destruct (saveFeatsToFile fs1 sfileNameFeats (_vec_feats this)) as [okF fs2].
    cbn in *. apply andb_true_iff in Hok as [-> ->].
    rewrite HDF, HF, HD by done. by destruct this.
Qed.

(* ================================================================== *)
(** * The further properties on the sample data *)
(* ================================================================== *)

Lemma createFilteredRegions_all_regions_witness :
  length (_vec_descs three) = length (_vec_feats three) ∧
  _featureIndex <$> [mkFeatureInImage 0 7; mkFeatureInImage 1 8; mkFeatureInImage 2 9]
    = N.of_nat <$> seq 0 (RegionCount three) ∧
  ∃ st,
    createFilteredRegions three
      [mkFeatureInImage 0 7; mkFeatureInImage 1 8; mkFeatureInImage 2 9] [] ∅
      = Returns st ∧
    regionsPtr st = three ∧
    out_mapFullToLocal st !! 2%N = Some 2%N.
Proof.
  assert (length (_vec_descs three) = length (_vec_feats three)) as Hlen
    by reflexivity.
  assert (_featureIndex <$>
            [mkFeatureInImage 0 7; mkFeatureInImage 1 8; mkFeatureInImage 2 9]
          = N.of_nat <$> seq 0 (RegionCount three)) as Hfs by reflexivity.
  split_and!; [exact Hlen | exact Hfs |].
  destruct (createFilteredRegions_all_regions three _ [] ∅ Hlen Hfs)
    as (st & Hrun & Hptr & _ & Hmap).
  exists st. split_and!; [exact Hrun | exact Hptr |].
  apply (Hmap 2). cbn. lia.
Defined.

Lemma createFilteredRegions_prefix_witness :
  ∃ st st1,
    createFilteredRegions three ([mkFeatureInImage 2 100] ++ [mkFeatureInImage 0 101])
      [] ∅ = Returns st ∧
    createFilteredRegions three [mkFeatureInImage 2 100] [] ∅ = Returns st1 ∧
    _vec_feats (regionsPtr st1) = [feat 30 31] ∧
    _vec_feats (regionsPtr st1) = take 1 (_vec_feats (regionsPtr st)).
Proof.
  destruct (createFilteredRegions_prefix three
              [mkFeatureInImage 2 100] [mkFeatureInImage 0 101] [] ∅ _ eq_refl)
    as (st1 & Hrun1 & _ & Hf & _).
  eexists _, st1. split_and!; [reflexivity | exact Hrun1 | | exact Hf].
  rewrite Hf. reflexivity.
Defined.

Lemma duplicate_associations_fit :
  (N.of_nat (length duplicate_associations) ≤ 2 ^ IndexT_bits)%N.
Proof. by vm_compute. Qed.

Lemma out_mapFullToLocal_consistent_witness :
  (N.of_nat (length duplicate_associations) ≤ 2 ^ IndexT_bits)%N ∧
  ∃ st,
    createFilteredRegions three duplicate_associations [] ∅ = Returns st ∧
    out_mapFullToLocal st !! 0%N = Some 1%N ∧
    _vec_feats (regionsPtr st) !! 1 = _vec_feats three !! 0 ∧
    out_associated3dPoint st !! 1 = Some 11%N.
Proof.
  split; [exact duplicate_associations_fit|].
  destruct (out_mapFullToLocal_consistent three duplicate_associations [] ∅ _ 0%N 1%N
              eq_refl duplicate_associations_fit eq_refl)
    as (a & Ha & _ & _ & _ & Hf & _ & Hp).
  cbn in Ha. injection Ha as <-.
  eexists. split_and!; [reflexivity | reflexivity | exact Hf | exact Hp].
Defined.

Lemma out_mapFullToLocal_keys_witness :
  ∃ st,
    createFilteredRegions three duplicate_associations [] ∅ = Returns st ∧
    dom (out_mapFullToLocal st) = list_to_set [0%N; 0%N] ∧
    size (out_mapFullToLocal st) = 1.
Proof.
  destruct (out_mapFullToLocal_keys three duplicate_associations [] ∅ _ eq_refl)
    as (Hdom & Hsize & _).
  eexists. split_and!; [reflexivity | exact Hdom | exact Hsize].
Defined.

Lemma createFilteredRegions_sorted_witness :
  StronglySorted (λ a b, FeatureInImage_lt b a = false)
    [mkFeatureInImage 0 10; mkFeatureInImage 0 11; mkFeatureInImage 2 5] ∧
  ∃ st,
    createFilteredRegions three
      [mkFeatureInImage 0 10; mkFeatureInImage 0 11; mkFeatureInImage 2 5] [] ∅
      = Returns st ∧
    out_mapFullToLocal st !! 0%N = Some 1%N ∧
    out_mapFullToLocal st !! 2%N = Some 2%N ∧
    (1 < 2)%N.
Proof.
  assert (StronglySorted (λ a b, FeatureInImage_lt b a = false)
            [mkFeatureInImage 0 10; mkFeatureInImage 0 11; mkFeatureInImage 2 5])
    as Hsorted by (repeat constructor).
  split; [exact Hsorted|].
  eexists. split_and!; [reflexivity | reflexivity | reflexivity |].
  apply (createFilteredRegions_sorted three
           [mkFeatureInImage 0 10; mkFeatureInImage 0 11; mkFeatureInImage 2 5]
           [] ∅ _ 0%N 2%N 1%N 2%N eq_refl Hsorted);
    [by vm_compute | reflexivity | reflexivity | reflexivity].
Defined.

Lemma SquaredDescriptorDistance_beyond_descriptors_witness :
  0 < length (_vec_descs three_scalar) ∧
  0 < RegionCount (clearDescriptors one_scalar) ∧
  length (_vec_descs (clearDescriptors one_scalar)) ≤ 0 ∧
  SquaredDescriptorDistance FeatT integer_elements SquaredMetric Debug Scalar_uchar_2
      three_scalar 0 (Some (existT Scalar_uchar_2 (clearDescriptors one_scalar))) 0
    = Undefined.
Proof.
  assert (0 < length (_vec_descs three_scalar)) as Hi by (cbn; lia).
  assert (0 < RegionCount (clearDescriptors one_scalar)) as Hj by (cbn; lia).
  assert (length (_vec_descs (clearDescriptors one_scalar)) ≤ 0) as Hd by (cbn; lia).
  split_and!; [exact Hi | exact Hj | exact Hd |].
  exact (SquaredDescriptorDistance_beyond_descriptors (FeatT := FeatT)
           (T := integer_elements) SquaredMetric Debug Scalar_uchar_2
           three_scalar (clearDescriptors one_scalar) 0 0 Hi Hj Hd).
Defined.

Lemma CopyRegions_into_EmptyClone_witness :
  length (_vec_descs three_scalar) = length (_vec_feats three_scalar) ∧
  CopyRegions FeatT integer_elements Debug Scalar_uchar_2 three_scalar [0; 1; 2]
      (EmptyClone FeatT integer_elements (existT Scalar_uchar_2 three_scalar))
    = Returns (existT Scalar_uchar_2 three_scalar).
Proof.
  assert (length (_vec_descs three_scalar) = length (_vec_feats three_scalar))
    as Hlen by reflexivity.
  split; [exact Hlen|].
  exact (CopyRegions_into_EmptyClone (FeatT := FeatT) (T := integer_elements)
           Debug Scalar_uchar_2 three_scalar Hlen).
Defined.

Lemma createFilteredRegions_as_CopyRegions_witness :
  ∃ st,
    createFilteredRegions three_scalar associations [] ∅ = Returns st ∧
    CopyRegions FeatT integer_elements Release Scalar_uchar_2 three_scalar [2; 0]
        (EmptyClone FeatT integer_elements (existT Scalar_uchar_2 three_scalar))
      = Returns (existT Scalar_uchar_2 (regionsPtr st)).
Proof.
  eexists. split; [reflexivity|].
  exact (createFilteredRegions_as_CopyRegions (FeatT := FeatT) (T := integer_elements)
           Release Scalar_uchar_2 three_scalar associations [] ∅ _ eq_refl).
Defined.

(** The sample file routines read back what was written, and do not disturb
    other paths. *)
Lemma sample_feats_read_back fs p v v0 :
  (saveFeatsToFile fs p v).1 = true →
  loadFeatsFromFile (saveFeatsToFile fs p v).2 p v0 = (true, v).
Proof. intros _. unfold loadFeatsFromFile. cbn. by rewrite lookup_insert_eq. Qed.

Lemma sample_descs_read_back fs p d d0 :
  (saveDescsToBinFile fs p d).1 = true →
  loadDescsFromBinFile (saveDescsToBinFile fs p d).2 p d0 = (true, d).
Proof. intros _. unfold loadDescsFromBinFile. cbn. by rewrite lookup_insert_eq. Qed.

Lemma sample_feats_other_path fs p q d v0 :
  p ≠ q →
  loadFeatsFromFile (saveDescsToBinFile fs q d).2 p v0 = loadFeatsFromFile fs p v0.
Proof. intros Hne. unfold loadFeatsFromFile. cbn. by rewrite lookup_insert_ne. Qed.

Lemma sample_descs_other_path fs p q v d0 :
  p ≠ q →
  loadDescsFromBinFile (saveFeatsToFile fs p v).2 q d0 = loadDescsFromBinFile fs q d0.
Proof. intros Hne. unfold loadDescsFromBinFile. cbn. by rewrite lookup_insert_ne. Qed.

Lemma Save_then_Load_witness :
  "feats" ≠ "descs" ∧
  (Save saveFeatsToFile saveDescsToBinFile false ∅ "feats" "descs" three).1 = true ∧
  Load loadFeatsFromFile loadDescsFromBinFile
      (Save saveFeatsToFile saveDescsToBinFile false ∅ "feats" "descs" three).2
      "feats" "descs" one
    = (true, three) ∧
  LoadFeatures loadFeatsFromFile
      (Save saveFeatsToFile saveDescsToBinFile false ∅ "feats" "descs" three).2
      "feats" one
    = (true, mkRegionsData (_vec_feats three) (_vec_descs one)).
Proof.
  assert ("feats" ≠ "descs") as Hne by discriminate.
  assert ((Save saveFeatsToFile saveDescsToBinFile false ∅ "feats" "descs" three).1
          = true) as Hok by reflexivity.
  split_and!; [exact Hne | exact Hok |..];
    apply (Save_then_Load loadFeatsFromFile loadDescsFromBinFile
             saveFeatsToFile saveDescsToBinFile false ∅ "feats" "descs" three one
             sample_feats_read_back sample_descs_read_back
             sample_feats_other_path sample_descs_other_path Hne Hok).
Defined.

(** Saved to one and the same path, the descriptors replace the features
    (or the features the descriptors), and [Load] fails. *)
Example Save_then_Load_same_path :
  (Save saveFeatsToFile saveDescsToBinFile true ∅ "file" "file" three).1 = true ∧
  (Load loadFeatsFromFile loadDescsFromBinFile
     (Save saveFeatsToFile saveDescsToBinFile true ∅ "file" "file" three).2
     "file" "file" one).1 = false.
Proof. split; reflexivity. Qed.
